(** * BCPNN synapse parameters for SpiNNaker: [pynn_spinnaker_bcpnn/bcpnn.py]

    A shallow embedding of the module: the formula strings of
    [BCPNNSynapse.translations] as expression trees evaluated with Python's
    arithmetic on binary64 floats, the fixed-point wrappers [s1813] and
    [s1813_ln_lut], the region layout [plasticity_param_map], the names of
    [comparable_param_names], and the two methods of the class. *)

From Stdlib Require Import ZArith QArith Qabs Qround Floats String List Bool.
From Stdlib Require Import Reals Qreals Lia Psatz.
From stdpp Require Import gmap.
Import ListNotations.

(* Decimal literals stand for the nearest binary64 value, as in Python. *)
#[local] Set Warnings "-inexact-float".

#[local] Open Scope string_scope.
#[local] Open Scope Z_scope.

(** ** Exceptions and results *)

(** The Python exceptions the modelled code can raise. *)
Inductive exn :=
| ZeroDivisionError
| OverflowError
| TypeError
| ValueError
| NameError (name : string)
| KeyError (key : string).

(** A computation either returns or raises. *)
Inductive result (A : Type) :=
| Ok (a : A)
| Raise (e : exn).
Arguments Ok {A} a.
Arguments Raise {A} e.

#[global] Instance result_ret : MRet result := fun A a => Ok a.
#[global] Instance result_bind : MBind result := fun A B k r =>
  match r with
  | Ok a => k a
  | Raise e => Raise e
  end.
#[global] Instance result_fmap : FMap result := fun A B f r =>
  match r with
  | Ok a => Ok (f a)
  | Raise e => Raise e
  end.

(** Runs [f] over a list from left to right; the first exception ends it. *)
Fixpoint mapM {A B} (f : A -> result B) (l : list A) : result (list B) :=
  match l with
  | [] => Ok []
  | a :: l' => b ← f a; bs ← mapM f l'; Ok (b :: bs)
  end.

(** ** Dictionaries

    Python dictionaries with string keys, in insertion order. *)
Definition dict (V : Type) := list (string * V).

Fixpoint dict_get {V} (k : string) (d : dict V) : option V :=
  match d with
  | [] => None
  | (k', v) :: d' => if String.eqb k k' then Some v else dict_get k d'
  end.

Definition keys {V} (d : dict V) : list string := map fst d.

(** ** Binary64 numbers *)

(** The float nearest to an integer (ties to even), as [float(z)] gives it. *)
Definition Z2F (z : Z) : float := SF2Prim (binary_normalize prec emax z 0 false).

(** The exact rational value of a finite float; zero for the others. *)
Definition F2Q (f : float) : Q :=
  match Prim2SF f with
  | S754_finite s m e =>
      let n := if s then Z.neg m else Z.pos m in
      if (0 <=? e)%Z then inject_Z (n * 2 ^ e) else Qmake n (Z.to_pos (2 ^ (- e)))
  | _ => 0%Q
  end.

(** The functions of the C library that Python and numpy call for powers,
    logarithms and exponentials.  IEEE 754 does not fix their results, so the
    model takes them as an interface. *)
Class Libm := {
  (** [x ** y] on two Python floats: C's [pow] and the interpreter's checks. *)
  float_pow : float -> float -> result float;
  (** [numpy.power] on one element. *)
  np_power : float -> float -> float;
  (** [numpy.log] on one element. *)
  np_log : float -> float;
  (** [numpy.exp] on one element. *)
  np_exp : float -> float
}.

(** ** Python values and their arithmetic *)

Inductive value :=
| VNone
| VBool (b : bool)
| VInt (z : Z)
| VFloat (f : float)
| VArray (a : list float).   (* a one-dimensional numpy float64 array *)

Inductive binop := Add | Sub | Mul | Div | Pow.

(** The numeric reading of a value: [bool] is a subclass of [int]. *)
Inductive num :=
| NInt (z : Z)
| NFloat (f : float)
| NArray (a : list float).

Definition as_num (v : value) : result num :=
  match v with
  | VNone => Raise TypeError
  | VBool b => Ok (NInt (Z.b2z b))
  | VInt z => Ok (NInt z)
  | VFloat f => Ok (NFloat f)
  | VArray a => Ok (NArray a)
  end.

Section Arithmetic.
Context `{Libm}.

(** Two Python floats.  Only division and power can raise. *)
Definition float_binop (op : binop) (x y : float) : result float :=
  match op with
  | Add => Ok (x + y)%float
  | Sub => Ok (x - y)%float
  | Mul => Ok (x * y)%float
  | Div => if is_zero y then Raise ZeroDivisionError else Ok (x / y)%float
  | Pow => float_pow x y
  end.

(** Two Python ints.  True division gives a float (exact up to 2^53, far above
    the ints 0..7 the formulas build); a negative exponent gives a float. *)
Definition int_binop (op : binop) (a b : Z) : result value :=
  match op with
  | Add => Ok (VInt (a + b))
  | Sub => Ok (VInt (a - b))
  | Mul => Ok (VInt (a * b))
  | Div => if b =? 0 then Raise ZeroDivisionError
           else Ok (VFloat (Z2F a / Z2F b)%float)
  | Pow => if 0 <=? b then Ok (VInt (a ^ b))
           else VFloat <$> float_pow (Z2F a) (Z2F b)
  end.

(** One element of a numpy operation: IEEE 754 results, nothing raised. *)
Definition np_binop (op : binop) (x y : float) : float :=
  match op with
  | Add => (x + y)%float
  | Sub => (x - y)%float
  | Mul => (x * y)%float
  | Div => (x / y)%float
  | Pow => np_power x y
  end.

Fixpoint zip_with {A B C} (f : A -> B -> C) (l : list A) (r : list B) : list C :=
  match l, r with
  | a :: l', b :: r' => f a b :: zip_with f l' r'
  | _, _ => []
  end.

(** numpy broadcasting of two one-dimensional arrays. *)
Definition broadcast (op : binop) (a b : list float) : result (list float) :=
  if (length a =? length b)%nat then Ok (zip_with (np_binop op) a b)
  else match a, b with
       | [x], _ => Ok (map (fun y => np_binop op x y) b)
       | _, [y] => Ok (map (fun x => np_binop op x y) a)
       | _, _ => Raise ValueError
       end.

Definition scalar_float (n : num) : float :=
  match n with
  | NInt z => Z2F z
  | NFloat f => f
  | NArray _ => 0%float
  end.

Definition py_binop (op : binop) (l r : value) : result value :=
  x ← as_num l;
  y ← as_num r;
  match x, y with
  | NInt a, NInt b => int_binop op a b
  | NArray a, NArray b => VArray <$> broadcast op a b
  | NArray a, _ => Ok (VArray (map (fun e => np_binop op e (scalar_float y)) a))
  | _, NArray b => Ok (VArray (map (fun e => np_binop op (scalar_float x) e) b))
  | _, _ => VFloat <$> float_binop op (scalar_float x) (scalar_float y)
  end.

End Arithmetic.

(** ** Formula strings

    The third item of a translation tuple is a Python expression in the names
    of the user parameters; PyNN passes it to [eval]. *)
Inductive expr :=
| EFloat (f : float)
| EInt (z : Z)
| EName (name : string)
| EBin (op : binop) (l r : expr).

Declare Scope py_scope.
Delimit Scope py_scope with py.
Bind Scope py_scope with expr.
Notation "$ n" := (EName n) (at level 1, n at level 0, format "$ n") : py_scope.
Notation "a + b" := (EBin Add a b) : py_scope.
Notation "a - b" := (EBin Sub a b) : py_scope.
Notation "a * b" := (EBin Mul a b) : py_scope.
Notation "a / b" := (EBin Div a b) : py_scope.
Notation "a ** b" := (EBin Pow a b) (at level 30, right associativity) : py_scope.

Section Eval.
Context `{Libm}.

(** Operands are evaluated left to right, as Python does. *)
Fixpoint eval (e : expr) (env : dict value) : result value :=
  match e with
  | EFloat f => Ok (VFloat f)
  | EInt z => Ok (VInt z)
  | EName n => match dict_get n env with
               | Some v => Ok v
               | None => Raise (NameError n)
               end
  | EBin op l r => vl ← eval l env; vr ← eval r env; py_binop op vl vr
  end.

End Eval.

(** The names an expression reads. *)
Fixpoint names (e : expr) : list string :=
  match e with
  | EName n => [n]
  | EBin _ l r => names l ++ names r
  | _ => []
  end.

Definition dict_set {V} (k : string) (v : V) (d : dict V) : dict V :=
  match dict_get k d with
  | Some _ => map (fun kv => if String.eqb k (fst kv) then (k, v) else kv) d
  | None => (d ++ [(k, v)])%list
  end.

(** ** [pyNN.standardmodels.build_translations]

    A tuple of two items leaves the value as it is; a tuple of four carries
    the forward and the reverse formula.  (Tuples of three items, a scale
    factor, do not occur in this module.) *)
Inductive translation_item :=
| Same (pynn_name sim_name : string)
| Formula (pynn_name sim_name : string) (f : expr) (g : string).

Record translation := {
  translated_name : string;
  forward_transform : expr;
  reverse_transform : string
}.

Definition build_translations (translation_list : list translation_item)
  : dict translation :=
  fold_left
    (fun translations item =>
       match item with
       | Same pynn_name sim_name =>
           dict_set pynn_name
             {| translated_name := sim_name;
                forward_transform := EName pynn_name;
                reverse_transform := sim_name |} translations
       | Formula pynn_name sim_name f g =>
           dict_set pynn_name
             {| translated_name := sim_name;
                forward_transform := f;
                reverse_transform := g |} translations
       end)
    translation_list [].

(** A lazy array: PyNN hands the formula's operands over as lazy arrays, so a
    native parameter is computed when it is read; the result of that
    evaluation stands for it here. *)
Definition larray := result value.


(** ** Fixed point

    [LazyArrayFloatToFixConverter] is imported from [pynn_spinnaker]; this
    module only constructs two converters and calls them. *)

(** Round to nearest, ties away from zero. *)
Definition round_half_away (q : Q) : Z :=
  if Qle_bool 0 q then Qfloor (q + (1 # 2)) else (- Qfloor (- q + (1 # 2)))%Z.

(** The constructor's arguments, in its order. *)
Record LazyArrayFloatToFixConverter := {
  signed : bool;
  n_bits : Z;
  n_frac : Z;
  copy : bool
}.

Definition min_value (c : LazyArrayFloatToFixConverter) : Z :=
  if signed c then - 2 ^ (n_bits c - 1) else 0.

Definition max_value (c : LazyArrayFloatToFixConverter) : Z :=
  if signed c then 2 ^ (n_bits c - 1) - 1 else 2 ^ n_bits c - 1.

Definition saturate (c : LazyArrayFloatToFixConverter) (z : Z) : Z :=
  Z.max (min_value c) (Z.min (max_value c) z).

(** Modelled from the spec: the conversion that [LazyArrayFloatToFixConverter]
    performs (its class is not in this repository).  Section 4.1: the value is
    scaled by two to the number of fractional bits, rounded to nearest with
    ties away from zero, and then saturated to the format's range. *)
Definition encode (c : LazyArrayFloatToFixConverter) (q : Q) : Z :=
  saturate c (round_half_away (q * inject_Z (2 ^ n_frac c))).

(** The real number a fixed-point word stands for. *)
Definition decode (c : LazyArrayFloatToFixConverter) (z : Z) : Q :=
  inject_Z z / inject_Z (2 ^ n_frac c).

(** Modelled from the spec: section 4.1 asks for a finite input. *)
Definition to_fixed (c : LazyArrayFloatToFixConverter) (f : float) : result Z :=
  if is_finite f then Ok (encode c (F2Q f)) else Raise ValueError.

(** The numbers a value holds, as an array. *)
Definition floats_of (v : value) : result (list float) :=
  match v with
  | VNone => Raise TypeError
  | VBool b => Ok [Z2F (Z.b2z b)]
  | VInt z => Ok [Z2F z]
  | VFloat f => Ok [f]
  | VArray a => Ok a
  end.

(** What a converter computes from the contents of its argument. *)
Definition convert (c : LazyArrayFloatToFixConverter) (v : value)
  : result (list Z) :=
  a ← floats_of v; mapM (to_fixed c) a.

(** Lines 22-23. *)
Definition float_to_s1813_no_copy : LazyArrayFloatToFixConverter :=
  {| signed := true; n_bits := 32; n_frac := 13; copy := false |}.
Definition float_to_s69_no_copy : LazyArrayFloatToFixConverter :=
  {| signed := true; n_bits := 16; n_frac := 9; copy := false |}.

(** ** Objects

    Arrays are mutable objects: a caller and a converter may hold the same
    one.  The store maps references to what the objects hold. *)
Abbreviation loc := positive (only parsing).

Inductive object :=
| OValue (v : value)
| OFixed (a : list Z).

Abbreviation store := (gmap positive object) (only parsing).

Definition load (l : loc) (σ : store) : result object :=
  match σ !! l with
  | Some o => Ok o
  | None => Raise (KeyError "object")
  end.

(** [copy.deepcopy]: a new object with the same contents. *)
Definition deepcopy (l : loc) (σ : store) : result (loc * store) :=
  o ← load l σ;
  let l' := fresh (dom σ) in
  Ok (l', <[l' := o]> σ).

(** Calling a converter.  With [copy] unset it works on the object it is
    given, which then holds the fixed-point words. *)
Definition call (c : LazyArrayFloatToFixConverter) (values : loc) (σ : store)
  : result (loc * store) :=
  '(vals, σ1) ← (if copy c then deepcopy values σ else Ok (values, σ));
  o ← load vals σ1;
  match o with
  | OValue v => a ← convert c v; Ok (vals, <[vals := OFixed a]> σ1)
  | OFixed _ => Raise TypeError
  end.

(** [s1813], lines 26-27.  The keyword arguments are accepted and not read. *)
Definition s1813 (values : loc) (kwargs : dict value) (σ : store)
  : result (loc * store) :=
  '(c, σ1) ← deepcopy values σ;
  call float_to_s1813_no_copy c σ1.

(** ** Lookup tables *)

(** [numpy.arange] on floats: the length is the ceiling of
    [(stop - start) / step]; the first two elements are [start] and
    [start + step], and element [i] is [start + i * delta] with [delta] their
    difference. *)
Definition arange_item (start step : float) (i : nat) : float :=
  match i with
  | O => start
  | S O => (start + step)%float
  | _ => (start + Z2F (Z.of_nat i) * ((start + step) - start))%float
  end.

Definition np_arange (start stop step : float) : result (list float) :=
  let len := ((stop - start) / step)%float in
  if is_finite len
  then Ok (map (arange_item start step) (seq 0 (Z.to_nat (Qceiling (F2Q len)))))
  else Raise ValueError.

Section Tables.
Context `{Libm}.

(** The size of the table, line 32. *)
Definition ln_lut_size (input_shift : Z) : Z :=
  Z.shiftr (Z.shiftl 1 13) input_shift.

(** The sampling grid of [s1813_ln_lut], lines 32-35.  Python refuses a
    negative shift count, and [1.0 / float(size)] raises when the size is 0. *)
Definition ln_lut_x (input_shift : Z) : result (list float) :=
  if input_shift <? 0 then Raise ValueError else
  let size := ln_lut_size input_shift in
  step ← float_binop Div 1 (Z2F size);
  np_arange 1 2 step.

(** [s1813_ln_lut], lines 30-38. *)
Definition s1813_ln_lut (input_shift : Z) : result (list Z) :=
  x ← ln_lut_x input_shift;
  convert float_to_s1813_no_copy (VArray (map np_log x)).

End Tables.

(** ** [pynn_spinnaker.spinnaker.lazy_param_map]

    A converter of a region layout gets the evaluated parameter and the
    keyword arguments of the region writer. *)
Definition converter := value -> dict value -> result (list Z).

(** The converters this module imports and does not define. *)
Class LazyParamMap := {
  s1615 : converter;
  s32_weight_fixed_point : converter;
  integer : converter;
  (** [exp_decay_lut(values, num_entries, time_shift, float_to_fixed, **kwargs)] *)
  exp_decay_lut :
    value -> Z -> Z -> LazyArrayFloatToFixConverter -> dict value -> result (list Z)
}.

(** Runs a wrapper that works on objects on a parameter no one else holds, and
    reads the words it returns. *)
Definition on_value
  (f : loc -> dict value -> store -> result (loc * store)) : converter :=
  fun v kwargs =>
    '(r, σ) ← f 1%positive kwargs {[ 1%positive := OValue v ]};
    o ← load r σ;
    match o with
    | OFixed a => Ok a
    | OValue _ => Raise TypeError
    end.

(** One entry of a region layout: a native parameter with its numpy type and
    converter, or a constant array with its numpy type. *)
Inductive field :=
| Param (name dtype : string) (f : converter)
| Constant (a : result (list Z)) (dtype : string).

(** [lazy_param_map.apply]: the entries are filled in the order of the
    layout. *)
Definition apply (lazy_params : string -> result value)
  (param_map : list field) (kwargs : dict value)
  : result (list (string * list Z)) :=
  mapM (fun entry =>
          match entry with
          | Param name dtype f =>
              v ← lazy_params name; a ← f v kwargs; Ok (dtype, a)
          | Constant a dtype => a' ← a; Ok (dtype, a')
          end)
       param_map.

(** ** [pynn_spinnaker.simulator.state] *)
Module simulator.

(** A setting is a number or a word such as ["auto"]. *)
Inductive setting :=
| Text (s : string)
| Number (x : float).

Record State := {
  min_delay : setting;
  dt : setting
}.

(** [d == "auto"] *)
Definition is_text (d : setting) (s : string) : bool :=
  match d with
  | Text t => String.eqb t s
  | Number _ => false
  end.

End simulator.

Module BCPNNSynapse.

(** [default_parameters], lines 82-99. *)
Definition default_parameters : dict value :=
  [ ("weight", VFloat 0);
    ("delay", VNone);
    ("tau_zi", VFloat 5);
    ("tau_zj", VFloat 5);
    ("tau_p", VFloat 1000);
    ("f_max", VFloat 20);
    ("phi", VFloat 0.05);
    ("w_max", VFloat 2);
    ("weights_enabled", VBool true);
    ("plasticity_enabled", VBool true);
    ("bias_enabled", VBool true);
    ("_placeholder1", VNone);
    ("_placeholder2", VNone) ].

(** A parameter space of this synapse type holds a value for every name of
    [default_parameters], and for no other. *)
Record ParameterSet := {
  weight : value;
  delay : value;
  tau_zi : value;
  tau_zj : value;
  tau_p : value;
  f_max : value;
  phi : value;
  w_max : value;
  weights_enabled : value;
  plasticity_enabled : value;
  bias_enabled : value;
  _placeholder1 : value;
  _placeholder2 : value
}.

Definition to_dict (P : ParameterSet) : dict value :=
  [ ("weight", weight P);
    ("delay", delay P);
    ("tau_zi", tau_zi P);
    ("tau_zj", tau_zj P);
    ("tau_p", tau_p P);
    ("f_max", f_max P);
    ("phi", phi P);
    ("w_max", w_max P);
    ("weights_enabled", weights_enabled P);
    ("plasticity_enabled", plasticity_enabled P);
    ("bias_enabled", bias_enabled P);
    ("_placeholder1", _placeholder1 P);
    ("_placeholder2", _placeholder2 P) ].

(** [translations], lines 102-121. *)
Definition translations : dict translation :=
  build_translations
    [ Same "weight" "weight";
      Same "delay" "delay";

      Same "tau_zi" "tau_zi";
      Same "tau_zj" "tau_zj";
      Same "tau_p" "tau_p";

      Formula "f_max" "a_i"
        (EFloat 1000 / ($"f_max" * ($"tau_zi" - $"tau_p")))%py EmptyString;
      Formula "weights_enabled" "a_j"
        (EFloat 1000 / ($"f_max" * ($"tau_zj" - $"tau_p")))%py EmptyString;
      Formula "plasticity_enabled" "a_ij"
        ((EFloat 1000000 / ($"tau_zi" + $"tau_zj"))
         / (($"f_max" ** EInt 2)
            * ((EFloat 1 / ((EFloat 1 / $"tau_zi") + (EFloat 1 / $"tau_zj")))
               - $"tau_p")))%py EmptyString;

      Formula "bias_enabled" "epsilon"
        (EFloat 1000 / ($"f_max" * $"tau_p"))%py EmptyString;
      Formula "_placeholder1" "epsilon_squared"
        ((EFloat 1000 / ($"f_max" * $"tau_p")) ** EInt 2)%py EmptyString;

      Same "phi" "phi";
      Same "w_max" "w_max";

      Formula "_placeholder2" "mode"
        ($"weights_enabled" + ($"plasticity_enabled" * EInt 2)
         + ($"bias_enabled" * EInt 4))%py EmptyString ].

Section Translate.
Context `{Libm}.

(** [StandardModelType.translate]: every user parameter is looked up in
    [translations] and its forward formula is evaluated over the whole
    parameter space. *)
Definition translate (parameters : dict value) : result (dict larray) :=
  mapM (fun name =>
          match dict_get name translations with
          | None => Raise (KeyError name)
          | Some D => Ok (translated_name D, eval (forward_transform D) parameters)
          end)
       (keys parameters).

(** Reading one native parameter. *)
Definition native (parameters : dict value) (name : string) : result value :=
  native_parameters ← translate parameters;
  match dict_get name native_parameters with
  | None => Raise (KeyError name)
  | Some a => a
  end.

End Translate.

Section Layout.
Context `{Libm} `{LazyParamMap}.

(** Lines 41-42. *)
Definition s69_exp_decay_lut (values : value) (num_entries time_shift : Z)
  : dict value -> result (list Z) :=
  exp_decay_lut values num_entries time_shift float_to_s69_no_copy.

(** [plasticity_param_map], lines 123-143. *)
Definition plasticity_param_map : list field :=
  [ Param "a_i" "i4" (on_value s1813);
    Param "a_j" "i4" (on_value s1813);
    Param "a_ij" "i4" (on_value s1813);

    Param "epsilon" "i4" (on_value s1813);
    Param "epsilon_squared" "i4" (on_value s1813);

    Param "phi" "i4" s1615;
    Param "w_max" "i4" s32_weight_fixed_point;

    Param "mode" "u4" integer;

    Param "tau_zi" "128i2" (fun values => s69_exp_decay_lut values 128 0);
    Param "tau_zj" "128i2" (fun values => s69_exp_decay_lut values 128 0);
    Param "tau_p" "1136i2" (fun values => s69_exp_decay_lut values 1136 3);
    Constant (s1813_ln_lut 6) "128i2" ].

(** The plasticity region of one parameter set. *)
Definition compile (P : ParameterSet) (kwargs : dict value)
  : result (list (string * list Z)) :=
  apply (native (to_dict P)) plasticity_param_map kwargs.

End Layout.

(** [comparable_param_names], lines 145-146. *)
Definition comparable_param_names : list string :=
  [ "tau_zi"; "tau_zj"; "tau_p"; "f_max"; "phi"; "w_max";
    "weights_enabled"; "plasticity_enabled"; "bias_enabled" ].

(** The values two synapse types are compared by. *)
Definition key (P : ParameterSet) : list (option value) :=
  map (fun name => dict_get name (to_dict P)) comparable_param_names.

(** [_get_minimum_delay], lines 176-180. *)
Definition _get_minimum_delay (state : simulator.State) : simulator.setting :=
  let d := simulator.min_delay state in
  let d := if simulator.is_text d "auto" then simulator.dt state else d in
  d.

(** [update_weight_range], lines 182-197: the body is [pass]; what follows it
    in the source is a comment.  The method returns [None]. *)
Definition update_weight_range (self weight_range : loc) (σ : store)
  : result (value * store) :=
  Ok (VNone, σ).

End BCPNNSynapse.

(** ** The helpers of the module, lines 44-51

    Three functions of the module that no formula of [translations] calls.
    Their arguments are whatever the caller passes; the operations are
    Python's, in Python's order of evaluation. *)
Module bcpnn.
Section Helpers.
Context `{Libm}.

(** [spike_height], lines 44-45: [1000.0 / (tau_z * f_max)]. *)
Definition spike_height (tau_z f_max : value) : result value :=
  d ← py_binop Mul tau_z f_max;
  py_binop Div (VFloat 1000) d.

(** [tau_zij], lines 47-48: [1.0 / ((1.0 / tau_zi) + (1.0 / tau_zj))]. *)
Definition tau_zij (tau_zi tau_zj : value) : result value :=
  ri ← py_binop Div (VFloat 1) tau_zi;
  rj ← py_binop Div (VFloat 1) tau_zj;
  s ← py_binop Add ri rj;
  py_binop Div (VFloat 1) s.

(** [a], lines 50-51: [(spike_height * tau_z) / (tau_z - tau_p)]. *)
Definition a (spike_height tau_z tau_p : value) : result value :=
  n ← py_binop Mul spike_height tau_z;
  d ← py_binop Sub tau_z tau_p;
  py_binop Div n d.

End Helpers.
End bcpnn.

(** ** The derivation as the specification words it

    Section 4.3 gives one closed form per native parameter, over user
    parameters that are floats and flags.  Division and power are Python's:
    a zero divisor raises. *)
Module Spec.

Record user_params := {
  weight : float;
  delay : option float;
  tau_zi : float;
  tau_zj : float;
  tau_p : float;
  f_max : float;
  phi : float;
  w_max : float;
  weights_enabled : bool;
  plasticity_enabled : bool;
  bias_enabled : bool
}.

(** The parameter space PyNN builds from them; the two placeholders keep
    their default. *)
Definition parameters (P : user_params) : BCPNNSynapse.ParameterSet :=
  {| BCPNNSynapse.weight := VFloat (weight P);
     BCPNNSynapse.delay := from_option VFloat VNone (delay P);
     BCPNNSynapse.tau_zi := VFloat (tau_zi P);
     BCPNNSynapse.tau_zj := VFloat (tau_zj P);
     BCPNNSynapse.tau_p := VFloat (tau_p P);
     BCPNNSynapse.f_max := VFloat (f_max P);
     BCPNNSynapse.phi := VFloat (phi P);
     BCPNNSynapse.w_max := VFloat (w_max P);
     BCPNNSynapse.weights_enabled := VBool (weights_enabled P);
     BCPNNSynapse.plasticity_enabled := VBool (plasticity_enabled P);
     BCPNNSynapse.bias_enabled := VBool (bias_enabled P);
     BCPNNSynapse._placeholder1 := VNone;
     BCPNNSynapse._placeholder2 := VNone |}.

Section Formulas.
Context `{Libm}.

#[local] Notation "x /! y" := (float_binop Div x y) (at level 40, left associativity).

(** a_i = 1000 / (f_max * (tau_zi - tau_p)) *)
Definition a_i (P : user_params) : result float :=
  1000 /! (f_max P * (tau_zi P - tau_p P)).

(** a_j = 1000 / (f_max * (tau_zj - tau_p)) *)
Definition a_j (P : user_params) : result float :=
  1000 /! (f_max P * (tau_zj P - tau_p P)).

(** a_ij = (1e6 / (tau_zi + tau_zj))
           / (f_max^2 * (1 / (1/tau_zi + 1/tau_zj) - tau_p)) *)
Definition a_ij (P : user_params) : result float :=
  n ← 1000000 /! (tau_zi P + tau_zj P);
  sq ← float_pow (f_max P) 2;
  ri ← 1 /! tau_zi P;
  rj ← 1 /! tau_zj P;
  h ← 1 /! (ri + rj);
  n /! (sq * (h - tau_p P)).

(** epsilon = 1000 / (f_max * tau_p) *)
Definition epsilon (P : user_params) : result float :=
  1000 /! (f_max P * tau_p P).

(** epsilon_squared = epsilon^2 *)
Definition epsilon_squared (P : user_params) : result float :=
  e ← epsilon P; float_pow e 2.

(** The same closed forms on one row of per-synapse arrays, where numpy
    computes them: IEEE 754 division, nothing raised. *)
Definition np_a_i (r : user_params) : float :=
  (1000 / (f_max r * (tau_zi r - tau_p r)))%float.

Definition np_a_j (r : user_params) : float :=
  (1000 / (f_max r * (tau_zj r - tau_p r)))%float.

Definition np_a_ij (r : user_params) : float :=
  ((1000000 / (tau_zi r + tau_zj r))
   / (np_power (f_max r) 2
      * (1 / (1 / tau_zi r + 1 / tau_zj r) - tau_p r)))%float.

Definition np_epsilon (r : user_params) : float :=
  (1000 / (f_max r * tau_p r))%float.

Definition np_epsilon_squared (r : user_params) : float :=
  np_power (np_epsilon r) 2.

End Formulas.

(** The parameter space of per-synapse arrays, one row per synapse; the
    flags are shared. *)
Definition per_synapse (rows : list user_params) (we pe be : bool)
  : BCPNNSynapse.ParameterSet :=
  {| BCPNNSynapse.weight := VArray (map weight rows);
     BCPNNSynapse.delay := VNone;
     BCPNNSynapse.tau_zi := VArray (map tau_zi rows);
     BCPNNSynapse.tau_zj := VArray (map tau_zj rows);
     BCPNNSynapse.tau_p := VArray (map tau_p rows);
     BCPNNSynapse.f_max := VArray (map f_max rows);
     BCPNNSynapse.phi := VArray (map phi rows);
     BCPNNSynapse.w_max := VArray (map w_max rows);
     BCPNNSynapse.weights_enabled := VBool we;
     BCPNNSynapse.plasticity_enabled := VBool pe;
     BCPNNSynapse.bias_enabled := VBool be;
     BCPNNSynapse._placeholder1 := VNone;
     BCPNNSynapse._placeholder2 := VNone |}.

(** mode = weights_enabled + 2*plasticity_enabled + 4*bias_enabled *)
Definition mode (P : user_params) : Z :=
  Z.b2z (weights_enabled P) + 2 * Z.b2z (plasticity_enabled P)
  + 4 * Z.b2z (bias_enabled P).

End Spec.

(** ** The exponential-decay table

    [lazy_param_map.exp_decay_lut] belongs to [pynn_spinnaker]; here the
    module only binds its arguments.  What it computes is stated over the
    real numbers. *)

(** Round to nearest, ties away from zero, on a real number. *)
Definition round_half_away_R (x : R) : Z :=
  if Rle_dec 0 x then Int_part (x + / 2) else (- Int_part (- x + / 2))%Z.

(** Modelled from the spec: the conversion of section 4.1 on a real number,
    scaled, rounded and then saturated, as [encode] does on a rational. *)
Definition encode_R (c : LazyArrayFloatToFixConverter) (x : R) : Z :=
  saturate c (round_half_away_R (x * IZR (2 ^ n_frac c))).

Definition decode_R (c : LazyArrayFloatToFixConverter) (z : Z) : R :=
  (IZR z / IZR (2 ^ n_frac c))%R.

(** The decay after [i] steps of [2 ^ time_shift] milliseconds. *)
Definition decay (tau : R) (time_shift : Z) (i : nat) : R :=
  exp (- (INR i * IZR (2 ^ time_shift)) / tau).

(** Modelled from the spec: the exponential-decay table of section 4.2 (its
    generator, [exp_decay_lut], is not in this repository).  Entry [i] is the
    decay multiplier after [i] timesteps, the timestep scaled by
    [time_shift], encoded under the table's format; a [tau] of 0 fails. *)
Definition exp_decay_table (c : LazyArrayFloatToFixConverter)
  (tau : R) (num_entries : nat) (time_shift : Z) : result (list Z) :=
  if Req_dec_T tau 0 then Raise ZeroDivisionError
  else Ok (map (fun i => encode_R c (decay tau time_shift i)) (seq 0 num_entries)).

(** ** What the properties below are stated with *)

(** The formula whose result is stored under a native name. *)
Definition forward_of (name : string) : option expr :=
  match List.find (fun kv => String.eqb name (translated_name (snd kv))) BCPNNSynapse.translations with
  | Some kv => Some (forward_transform (snd kv))
  | None => None
  end.

(** The native parameters a layout reads. *)
Fixpoint layout_names (param_map : list field) : list string :=
  match param_map with
  | [] => []
  | Param name _ _ :: m => name :: layout_names m
  | Constant _ _ :: m => layout_names m
  end.

Definition mem (x : string) (l : list string) : bool := existsb (String.eqb x) l.

(** Every name the formula of [name] reads is one of [allowed]. *)
Definition reads_only (allowed : list string) (name : string) : bool :=
  match forward_of name with
  | Some e => forallb (fun x => mem x allowed) (names e)
  | None => false
  end.

(** Every division of the formula has a float literal or a quotient for its
    numerator. *)
Fixpoint float_divisions (e : expr) : bool :=
  match e with
  | EBin op l r =>
      match op, l with
      | Div, EFloat _ | Div, EBin Div _ _ => true
      | Div, _ => false
      | _, _ => true
      end && float_divisions l && float_divisions r
  | _ => true
  end.

(** The step and the samples of the logarithm table's grid. *)
Definition ln_lut_step (input_shift : Z) : float :=
  (1 / Z2F (ln_lut_size input_shift))%float.

Definition ln_lut_sample (input_shift : Z) (i : nat) : float :=
  arange_item 1 (ln_lut_step input_shift) i.

(** Sample [i] is finite and is exactly [1 + i / size]. *)
Definition sample_ok (input_shift : Z) (i : nat) : bool :=
  let x := ln_lut_sample input_shift i in
  is_finite x
  && Qeq_bool (F2Q x)
       (1 + inject_Z (Z.of_nat i) / inject_Z (ln_lut_size input_shift)).

(** A float the s18.13 format holds without saturating. *)
Definition in_s1813_range (y : float) : bool :=
  is_finite y && Qle_bool (Qabs (F2Q y)) 262143.

(** The numpy type a layout entry is stored with. *)
Definition field_dtype (entry : field) : string :=
  match entry with
  | Param _ dtype _ => dtype
  | Constant _ dtype => dtype
  end.

(** The range of a signed 16-bit field, [i2]. *)
Definition fits_i2 (z : Z) : bool := (-32768 <=? z) && (z <=? 32767).

(** A logarithm between 0 and 1, as on the octave from 1 to 2. *)
Definition log_in_unit (y : float) : bool :=
  is_finite y && Qle_bool 0 (F2Q y) && Qle_bool (F2Q y) 1.

(** The record form of [default_parameters]. *)
Definition defaults : BCPNNSynapse.ParameterSet :=
  {| BCPNNSynapse.weight := VFloat 0;
     BCPNNSynapse.delay := VNone;
     BCPNNSynapse.tau_zi := VFloat 5;
     BCPNNSynapse.tau_zj := VFloat 5;
     BCPNNSynapse.tau_p := VFloat 1000;
     BCPNNSynapse.f_max := VFloat 20;
     BCPNNSynapse.phi := VFloat 0.05;
     BCPNNSynapse.w_max := VFloat 2;
     BCPNNSynapse.weights_enabled := VBool true;
     BCPNNSynapse.plasticity_enabled := VBool true;
     BCPNNSynapse.bias_enabled := VBool true;
     BCPNNSynapse._placeholder1 := VNone;
     BCPNNSynapse._placeholder2 := VNone |}.

(** The defaults with [tau_zi] given per synapse, as a numpy array of one
    element that equals [tau_p]. *)
Definition array_tau_zi : BCPNNSynapse.ParameterSet :=
  {| BCPNNSynapse.weight := VFloat 0;
     BCPNNSynapse.delay := VNone;
     BCPNNSynapse.tau_zi := VArray [1000%float];
     BCPNNSynapse.tau_zj := VFloat 5;
     BCPNNSynapse.tau_p := VFloat 1000;
     BCPNNSynapse.f_max := VFloat 20;
     BCPNNSynapse.phi := VFloat 0.05;
     BCPNNSynapse.w_max := VFloat 2;
     BCPNNSynapse.weights_enabled := VBool true;
     BCPNNSynapse.plasticity_enabled := VBool true;
     BCPNNSynapse.bias_enabled := VBool true;
     BCPNNSynapse._placeholder1 := VNone;
     BCPNNSynapse._placeholder2 := VNone |}.

(** The defaults with another weight and delay. *)
Definition other_weight_delay : BCPNNSynapse.ParameterSet :=
  {| BCPNNSynapse.weight := VFloat 0.5;
     BCPNNSynapse.delay := VFloat 3;
     BCPNNSynapse.tau_zi := VFloat 5;
     BCPNNSynapse.tau_zj := VFloat 5;
     BCPNNSynapse.tau_p := VFloat 1000;
     BCPNNSynapse.f_max := VFloat 20;
     BCPNNSynapse.phi := VFloat 0.05;
     BCPNNSynapse.w_max := VFloat 2;
     BCPNNSynapse.weights_enabled := VBool true;
     BCPNNSynapse.plasticity_enabled := VBool true;
     BCPNNSynapse.bias_enabled := VBool true;
     BCPNNSynapse._placeholder1 := VNone;
     BCPNNSynapse._placeholder2 := VNone |}.

(** Scalar parameters on the boundary [tau_zi = tau_p]. *)
Definition boundary : Spec.user_params :=
  {| Spec.weight := 0; Spec.delay := None;
     Spec.tau_zi := 1000; Spec.tau_zj := 5; Spec.tau_p := 1000;
     Spec.f_max := 20; Spec.phi := 0.05; Spec.w_max := 2;
     Spec.weights_enabled := true; Spec.plasticity_enabled := true;
     Spec.bias_enabled := true |}.

(** An instance to run the model on: squares are exact products, and the
    logarithm and the exponential are cut after their first-order term. *)
Definition first_order_libm : Libm :=
  {| float_pow := fun x y =>
       if (y =? 2)%float then Ok (x * x)%float else Raise ValueError;
     np_power := fun x y => (x * x)%float;
     np_log := fun x => (x - 1)%float;
     np_exp := fun x => (1 + x)%float |}.

(** Converters with the signatures of the imported ones, to run a layout. *)
Definition sample_lazy_param_map : LazyParamMap :=
  {| s1615 := fun v _ =>
       convert {| signed := true; n_bits := 32; n_frac := 15; copy := true |} v;
     s32_weight_fixed_point := fun v kwargs =>
       match dict_get "weight_fixed_point" kwargs with
       | Some (VInt n) =>
           convert {| signed := true; n_bits := 32; n_frac := n; copy := true |} v
       | _ => Raise (KeyError "weight_fixed_point")
       end;
     integer := fun v _ =>
       convert {| signed := false; n_bits := 32; n_frac := 0; copy := true |} v;
     exp_decay_lut := fun v num_entries time_shift c _ =>
       tau ← floats_of v;
       match tau with
       | [t] =>
           mapM (fun i =>
                   to_fixed c
                     (@np_exp first_order_libm
                        (- (Z2F (Z.of_nat i * 2 ^ time_shift)) / t)%float))
                (seq 0 (Z.to_nat num_entries))
       | _ => Raise ValueError
       end |}.

(** * Properties *)

Section Derivation.
Context `{Libm}.
Import BCPNNSynapse.

Lemma Z2F_2 : Z2F 2 = 2%float.
Proof. reflexivity. Qed.

(** No formula of [translations] divides an int by an int, so the division of
    two ints in [int_binop] is never reached from this module. *)
Lemma formulas_divide_floats :
  forallb (fun kv => float_divisions (forward_transform (snd kv))) translations
  = true.
Proof. reflexivity. Qed.

(** Scalar parameters: Python's arithmetic. *)
Lemma translate_scalars (P : Spec.user_params) :
  translate (to_dict (Spec.parameters P)) =
  Ok [ ("weight", Ok (VFloat (Spec.weight P)));
       ("delay", Ok (from_option VFloat VNone (Spec.delay P)));
       ("tau_zi", Ok (VFloat (Spec.tau_zi P)));
       ("tau_zj", Ok (VFloat (Spec.tau_zj P)));
       ("tau_p", Ok (VFloat (Spec.tau_p P)));
       ("a_i", VFloat <$> Spec.a_i P);
       ("phi", Ok (VFloat (Spec.phi P)));
       ("w_max", Ok (VFloat (Spec.w_max P)));
       ("a_j", VFloat <$> Spec.a_j P);
       ("a_ij", VFloat <$> Spec.a_ij P);
       ("epsilon", VFloat <$> Spec.epsilon P);
       ("epsilon_squared", VFloat <$> Spec.epsilon_squared P);
       ("mode", Ok (VInt (Spec.mode P))) ].
Proof.
  destruct P as [w d tzi tzj tp fm ph wm we pe be].
  unfold translate. cbn. repeat f_equal.
  - destruct (tzi + tzj =? zero)%float; cbn; [reflexivity|].
    rewrite Z2F_2. destruct (float_pow fm 2); cbn; [|reflexivity].
    destruct (tzi =? zero)%float; cbn; [reflexivity|].
    destruct (tzj =? zero)%float; cbn; [reflexivity|].
    destruct (1 / tzi + 1 / tzj =? zero)%float; cbn; [reflexivity|].
    destruct (_ =? zero)%float; reflexivity.
  - destruct (fm * tp =? zero)%float; cbn; [reflexivity|].
    rewrite Z2F_2. reflexivity.
  - unfold Spec.mode; cbn. lia.
Qed.

(** numpy's arithmetic on arrays that are columns of the same rows. *)
Lemma zip_with_map {A B C D} (h : B -> C -> D) (f : A -> B) (g : A -> C)
  (l : list A) :
  zip_with h (map f l) (map g l) = map (fun a => h (f a) (g a)) l.
Proof. induction l as [|a l IH]; cbn; [reflexivity|now rewrite IH]. Qed.

Lemma array_array {A} (op : binop) (f g : A -> float) (rows : list A) :
  py_binop op (VArray (map f rows)) (VArray (map g rows))
  = Ok (VArray (map (fun r => np_binop op (f r) (g r)) rows)).
Proof.
  unfold py_binop, broadcast. cbn. rewrite !length_map, Nat.eqb_refl. cbn.
  now rewrite zip_with_map.
Qed.

Lemma float_array {A} (op : binop) (x : float) (g : A -> float) (rows : list A) :
  py_binop op (VFloat x) (VArray (map g rows))
  = Ok (VArray (map (fun r => np_binop op x (g r)) rows)).
Proof. unfold py_binop. cbn. now rewrite map_map. Qed.

Lemma array_int {A} (op : binop) (f : A -> float) (z : Z) (rows : list A) :
  py_binop op (VArray (map f rows)) (VInt z)
  = Ok (VArray (map (fun r => np_binop op (f r) (Z2F z)) rows)).
Proof. unfold py_binop. cbn. now rewrite map_map. Qed.

(** Per-synapse arrays: the closed forms row by row. *)
Lemma translate_rows (rows : list Spec.user_params) (we pe be : bool) :
  translate (to_dict (Spec.per_synapse rows we pe be)) =
  Ok [ ("weight", Ok (VArray (map Spec.weight rows)));
       ("delay", Ok VNone);
       ("tau_zi", Ok (VArray (map Spec.tau_zi rows)));
       ("tau_zj", Ok (VArray (map Spec.tau_zj rows)));
       ("tau_p", Ok (VArray (map Spec.tau_p rows)));
       ("a_i", Ok (VArray (map Spec.np_a_i rows)));
       ("phi", Ok (VArray (map Spec.phi rows)));
       ("w_max", Ok (VArray (map Spec.w_max rows)));
       ("a_j", Ok (VArray (map Spec.np_a_j rows)));
       ("a_ij", Ok (VArray (map Spec.np_a_ij rows)));
       ("epsilon", Ok (VArray (map Spec.np_epsilon rows)));
       ("epsilon_squared", Ok (VArray (map Spec.np_epsilon_squared rows)));
       ("mode", Ok (VInt (Z.b2z we + 2 * Z.b2z pe + 4 * Z.b2z be))) ].
Proof.
  unfold translate.
  cbn [keys map fst to_dict mapM dict_get translations].
  cbn -[py_binop].
  repeat (progress (cbn [mbind result_bind];
                    rewrite ?array_array, ?float_array, ?array_int)).
  cbn.
  replace (Z.b2z we + Z.b2z pe * 2 + Z.b2z be * 4)
    with (Z.b2z we + 2 * Z.b2z pe + 4 * Z.b2z be) by lia.
  reflexivity.
Qed.

(** C1. Every native parameter that [translate] builds is the closed form of
    section 4.3, computed in floating point on the user parameters
    themselves, with no fixed-point conversion taking part.  On scalars
    [a_i], [a_j], [a_ij], [epsilon] and [epsilon_squared] are the formulas in
    Python's float arithmetic (a zero divisor raises at the division the
    formula names); on per-synapse arrays they are the formulas row by row
    in numpy's.  [mode] is the integer
    [weights_enabled + 2*plasticity_enabled + 4*bias_enabled], and the other
    parameters pass through. *)
Theorem translate_closed_forms
  (P : Spec.user_params) (rows : list Spec.user_params) (we pe be : bool) :
  translate (to_dict (Spec.parameters P)) =
  Ok [ ("weight", Ok (VFloat (Spec.weight P)));
       ("delay", Ok (from_option VFloat VNone (Spec.delay P)));
       ("tau_zi", Ok (VFloat (Spec.tau_zi P)));
       ("tau_zj", Ok (VFloat (Spec.tau_zj P)));
       ("tau_p", Ok (VFloat (Spec.tau_p P)));
       ("a_i", VFloat <$> Spec.a_i P);
       ("phi", Ok (VFloat (Spec.phi P)));
       ("w_max", Ok (VFloat (Spec.w_max P)));
       ("a_j", VFloat <$> Spec.a_j P);
       ("a_ij", VFloat <$> Spec.a_ij P);
       ("epsilon", VFloat <$> Spec.epsilon P);
       ("epsilon_squared", VFloat <$> Spec.epsilon_squared P);
       ("mode", Ok (VInt (Spec.mode P))) ]
  /\ translate (to_dict (Spec.per_synapse rows we pe be)) =
     Ok [ ("weight", Ok (VArray (map Spec.weight rows)));
          ("delay", Ok VNone);
          ("tau_zi", Ok (VArray (map Spec.tau_zi rows)));
          ("tau_zj", Ok (VArray (map Spec.tau_zj rows)));
          ("tau_p", Ok (VArray (map Spec.tau_p rows)));
          ("a_i", Ok (VArray (map Spec.np_a_i rows)));
          ("phi", Ok (VArray (map Spec.phi rows)));
          ("w_max", Ok (VArray (map Spec.w_max rows)));
          ("a_j", Ok (VArray (map Spec.np_a_j rows)));
          ("a_ij", Ok (VArray (map Spec.np_a_ij rows)));
          ("epsilon", Ok (VArray (map Spec.np_epsilon rows)));
          ("epsilon_squared", Ok (VArray (map Spec.np_epsilon_squared rows)));
          ("mode", Ok (VInt (Z.b2z we + 2 * Z.b2z pe + 4 * Z.b2z be))) ].
Proof.
  split.
  - apply translate_scalars.
  - apply translate_rows.
Qed.

End Derivation.

Section Example.
Context `{Libm}.
Import BCPNNSynapse.

(** C7. On the default parameters [mode] is 7 and [epsilon] is 0.05; the signed
    format with 32 bits, 13 of them fractional, rounding to nearest with ties
    away from zero, encodes 0.05 as 410; and so does [s1813] on the derived
    [epsilon]. *)
Theorem default_mode_epsilon_410 (kwargs : dict value) :
  native default_parameters "mode" = Ok (VInt 7)
  /\ native default_parameters "epsilon" = Ok (VFloat 0.05)
  /\ encode {| signed := true; n_bits := 32; n_frac := 13; copy := false |}
       (F2Q 0.05) = 410
  /\ (v ← native default_parameters "epsilon"; on_value s1813 v kwargs)
     = Ok [410].
Proof.
  split; [|split; [|split]].
  - (* 1 + 1*2 + 1*4 on the three flags *)
    unfold native. cbn. reflexivity.
  - (* 1000.0 / (20.0 * 1000.0), one rounded product and one rounded quotient *)
    unfold native. cbn. reflexivity.
  - (* 0.05 * 8192 = 409.6..., whose nearest integer is 410 *)
    vm_compute. reflexivity.
  - vm_compute. reflexivity.
Qed.

End Example.

Section Objects.

Lemma fresh_not_held (σ : store) (l : loc) :
  l ∈ dom σ -> fresh (dom σ) ≠ l.
Proof. intros Hl Heq. rewrite <- Heq in Hl. exact (is_fresh (dom σ) Hl). Qed.

(** What [s1813] does to the store: one new object, nothing else. *)
Lemma s1813_store (σ : store) (values : loc) (v : value) (kwargs : dict value) :
  σ !! values = Some (OValue v) ->
  s1813 values kwargs σ =
  (a ← convert float_to_s1813_no_copy v;
   Ok (fresh (dom σ), <[fresh (dom σ) := OFixed a]> σ)).
Proof.
  intros Hv. unfold s1813, deepcopy, load. rewrite Hv. cbn.
  unfold call, load. cbn. rewrite lookup_insert_eq. cbn.
  destruct (convert float_to_s1813_no_copy v) as [a|e]; cbn; [|reflexivity].
  now rewrite insert_insert_eq.
Qed.

(** C8. [s1813] leaves the object it is given, and every other object of the
    store, as it was: the fixed-point words are written to a new object, the
    deep copy.  These words depend on the contents of the argument alone;
    the keyword arguments change nothing. *)
Theorem s1813_leaves_input
  (σ : store) (values : loc) (v : value) (kwargs kwargs' : dict value) :
  σ !! values = Some (OValue v) ->
  (match s1813 values kwargs σ with
   | Ok (r, σ') =>
       σ' !! values = Some (OValue v)
       /\ (forall l, l ∈ dom σ -> σ' !! l = σ !! l)
       /\ (r ∉ dom σ)
       /\ exists a, convert float_to_s1813_no_copy v = Ok a
                    /\ σ' !! r = Some (OFixed a)
   | Raise e => convert float_to_s1813_no_copy v = Raise e
   end)
  /\ s1813 values kwargs' σ = s1813 values kwargs σ.
Proof.
  intros Hv. split.
  - rewrite (s1813_store σ values v kwargs Hv).
    destruct (convert float_to_s1813_no_copy v) as [a|e]; cbn; [|reflexivity].
    assert (Hin : values ∈ dom σ) by (apply elem_of_dom; eauto).
    repeat split.
    + rewrite lookup_insert_ne; [exact Hv|]. now apply fresh_not_held.
    + intros l Hl. rewrite lookup_insert_ne; [reflexivity|].
      now apply fresh_not_held.
    + apply is_fresh.
    + exists a. split; [reflexivity|]. apply lookup_insert_eq.
  - now rewrite !(s1813_store σ values v _ Hv).
Qed.

(** The converter alone, called without the copy, overwrites its argument:
    this is what the wrapper's [deepcopy] is for. *)
Lemma no_copy_overwrites (σ : store) (values : loc) (v : value) (a : list Z) :
  σ !! values = Some (OValue v) ->
  convert float_to_s1813_no_copy v = Ok a ->
  call float_to_s1813_no_copy values σ = Ok (values, <[values := OFixed a]> σ).
Proof.
  intros Hv Ha. unfold call, load. cbn. rewrite Hv. cbn. now rewrite Ha.
Qed.

End Objects.

Section Equality_key.
Context `{Libm} `{LazyParamMap}.
Import BCPNNSynapse.

Lemma mem_In x l : mem x l = true -> In x l.
Proof.
  unfold mem. rewrite existsb_exists. intros (y & Hy & Heq).
  apply String.eqb_eq in Heq. now subst.
Qed.

(** A formula sees only the names it reads. *)
Lemma eval_ext (e : expr) (env1 env2 : dict value) :
  (forall n, In n (names e) -> dict_get n env1 = dict_get n env2) ->
  eval e env1 = eval e env2.
Proof.
  induction e as [f|z|n|op l IHl r IHr]; cbn; intros Hag; try reflexivity.
  - rewrite (Hag n); [reflexivity|now left].
  - rewrite IHl, IHr; [reflexivity| |];
      intros n Hn; apply Hag, in_or_app; [right|left]; exact Hn.
Qed.

(** Over a parameter space, a native parameter is its formula's value. *)
Lemma native_eval (P : ParameterSet) (name : string) (e : expr) :
  forward_of name = Some e ->
  native (to_dict P) name = eval e (to_dict P).
Proof.
  unfold forward_of, native, translate. cbn.
  repeat match goal with
         | |- context [String.eqb name ?s] =>
             destruct (String.eqb_spec name s) as [->|?]; cbn;
             [intros [= <-]; reflexivity|]
         end.
  discriminate.
Qed.

(** Equal keys: the two parameter spaces agree on every comparable name. *)
Lemma key_agree (P1 P2 : ParameterSet) (n : string) :
  key P1 = key P2 -> In n comparable_param_names ->
  dict_get n (to_dict P1) = dict_get n (to_dict P2).
Proof.
  unfold key. intros Hk Hn.
  induction comparable_param_names as [|m l IH]; [destruct Hn|].
  cbn [map] in Hk. injection Hk as Hm Hl.
  destruct Hn as [<-|Hn]; [exact Hm|now apply IH].
Qed.

Lemma native_agree (P1 P2 : ParameterSet) (name : string) :
  key P1 = key P2 ->
  reads_only comparable_param_names name = true ->
  native (to_dict P1) name = native (to_dict P2) name.
Proof.
  unfold reads_only. intros Hk Hr.
  destruct (forward_of name) as [e|] eqn:He; [|discriminate].
  rewrite !(native_eval _ name e He).
  apply eval_ext. intros n Hn. apply key_agree; [exact Hk|].
  rewrite forallb_forall in Hr. apply mem_In, Hr, Hn.
Qed.

(** A layout sees only the native parameters it names. *)
Lemma apply_ext (lp1 lp2 : string -> result value) (m : list field)
  (kwargs : dict value) :
  (forall n, In n (layout_names m) -> lp1 n = lp2 n) ->
  apply lp1 m kwargs = apply lp2 m kwargs.
Proof.
  unfold apply. induction m as [|[name dtype f|a dtype] m IH]; cbn; intros Hag.
  - reflexivity.
  - rewrite (Hag name) by now left. rewrite IH; [reflexivity|].
    intros n Hn. apply Hag. now right.
  - rewrite IH; [reflexivity|exact Hag].
Qed.


End Equality_key.

(** ** Binary64 facts used below, from the specification of the primitives *)
Section Binary64.

Lemma finite_cases (x : float) :
  is_finite x = true ->
  (exists s, Prim2SF x = S754_zero s)
  \/ (exists s m e, Prim2SF x = S754_finite s m e).
Proof.
  unfold is_finite, is_nan, is_infinity.
  rewrite !FloatAxioms.eqb_spec, abs_spec.
  destruct (Prim2SF x) as [s|s| |s m e]; intros Hfin;
    try destruct s; vm_compute in Hfin; try discriminate; eauto.
Qed.

Lemma zero_cases (z : float) :
  is_zero z = true -> exists s, Prim2SF z = S754_zero s.
Proof.
  unfold is_zero. rewrite FloatAxioms.eqb_spec.
  destruct (Prim2SF z) as [s|s| |s m e]; intros Hz;
    vm_compute in Hz; try discriminate; eauto; now destruct s.
Qed.

Lemma zero_intro (z : float) (s : bool) :
  Prim2SF z = S754_zero s -> is_zero z = true.
Proof.
  intros Hz. unfold is_zero. rewrite FloatAxioms.eqb_spec, Hz. reflexivity.
Qed.

(** Two finite floats that compare equal have a zero difference. *)
Lemma sub_eq_zero (x y : float) :
  is_finite x = true -> is_finite y = true ->
  (x =? y)%float = true -> is_zero (x - y) = true.
Proof.
  intros Hx Hy. rewrite FloatAxioms.eqb_spec. intros Heq.
  assert (exists s, Prim2SF (x - y) = S754_zero s) as [s Hs];
    [|exact (zero_intro _ s Hs)].
  rewrite sub_spec. revert Heq.
  destruct (finite_cases x Hx) as [[sx ->]|(sx & mx & ex & ->)];
    destruct (finite_cases y Hy) as [[sy ->]|(sy & my & ey & ->)];
    cbn; intros Heq.
  - destruct sx, sy; eauto.
  - destruct sy; discriminate.
  - destruct sx; discriminate.
  - assert (sx = sy /\ ex = ey /\ mx = my) as (-> & -> & ->).
    { destruct sx, sy; try discriminate;
        destruct (ex ?= ey) eqn:He; try discriminate;
        apply Z.compare_eq in He; subst; repeat split;
        apply Pos.compare_eq; unfold Pos.compare;
        destruct (Pos.compare_cont Eq mx my); (reflexivity || discriminate). }
    rewrite Z.min_id. unfold shl_align. rewrite Z.sub_diag. cbn [fst].
    rewrite ?Z.sub_diag. cbn. eauto.
Qed.

(** A finite float times a zero is a zero. *)
Lemma mul_zero (f z : float) :
  is_finite f = true -> is_zero z = true -> is_zero (f * z) = true.
Proof.
  intros Hf Hz. destruct (zero_cases z Hz) as [sz Hsz].
  assert (exists s, Prim2SF (f * z) = S754_zero s) as [s Hs];
    [|exact (zero_intro _ s Hs)].
  rewrite mul_spec, Hsz.
  destruct (finite_cases f Hf) as [[sf ->]|(sf & mf & ef & ->)]; cbn; eauto.
Qed.

End Binary64.

Section Zero_divisors.
Context `{Libm} `{LazyParamMap}.
Import BCPNNSynapse.

Lemma native_a_i (P : Spec.user_params) :
  native (to_dict (Spec.parameters P)) "a_i" = VFloat <$> Spec.a_i P.
Proof. reflexivity. Qed.

Lemma native_a_j (P : Spec.user_params) :
  native (to_dict (Spec.parameters P)) "a_j" = VFloat <$> Spec.a_j P.
Proof. reflexivity. Qed.

Lemma native_a_ij_zero_sum (P : Spec.user_params) :
  is_zero (Spec.tau_zi P + Spec.tau_zj P) = true ->
  native (to_dict (Spec.parameters P)) "a_ij" = Raise ZeroDivisionError.
Proof.
  intros Hz. unfold native, translate. cbn.
  unfold is_zero in Hz. now rewrite Hz.
Qed.


End Zero_divisors.




Lemma s1813_leaves_input_witness :
  let σ : store := {[ 1%positive := OValue (VFloat 0.05) ]} in
  σ !! 1%positive = Some (OValue (VFloat 0.05))
  /\ (match s1813 1%positive [] σ with
      | Ok (r, σ') =>
          σ' !! 1%positive = Some (OValue (VFloat 0.05))
          /\ (forall l, l ∈ dom σ -> σ' !! l = σ !! l)
          /\ (r ∉ dom σ)
          /\ exists a, convert float_to_s1813_no_copy (VFloat 0.05) = Ok a
                       /\ σ' !! r = Some (OFixed a)
      | Raise e => convert float_to_s1813_no_copy (VFloat 0.05) = Raise e
      end).
Proof.
  split; [reflexivity|].
  exact (proj1 (s1813_leaves_input {[ 1%positive := OValue (VFloat 0.05) ]}
                  1%positive (VFloat 0.05) [] [] eq_refl)).
Defined.

Section Methods.
Import BCPNNSynapse.

(** C10. [_get_minimum_delay] returns [state.dt] when [state.min_delay] is the
    string "auto", and [state.min_delay] itself otherwise. *)
Theorem get_minimum_delay_auto (state : simulator.State) :
  (simulator.min_delay state = simulator.Text "auto" ->
   _get_minimum_delay state = simulator.dt state)
  /\ (simulator.min_delay state <> simulator.Text "auto" ->
      _get_minimum_delay state = simulator.min_delay state).
Proof.
  unfold _get_minimum_delay. split.
  - intros ->. reflexivity.
  - intros Hne. destruct (simulator.min_delay state) as [t|x]; cbn; [|reflexivity].
    destruct (String.eqb_spec t "auto") as [->|_]; [|reflexivity].
    now destruct Hne.
Qed.

(** C9. [update_weight_range] returns [None] and leaves the store as it was,
    its [weight_range] argument and the synapse included: nothing is
    computed, the weight-range formula least of all. *)
Theorem update_weight_range_is_pass (self weight_range : loc) (σ : store) :
  exists σ', update_weight_range self weight_range σ = Ok (VNone, σ')
             /\ σ' = σ
             /\ σ' !! weight_range = σ !! weight_range
             /\ σ' !! self = σ !! self.
Proof. exists σ. repeat split. Qed.

End Methods.

(** ** Rounding and the s18.13 format *)
Section Rounding.

Lemma round_half_away_bound (q : Q) :
  (Qabs (inject_Z (round_half_away q) - q) <= 1 # 2)%Q.
Proof.
  unfold round_half_away. apply Qabs_Qle_condition.
  destruct (Qle_bool 0 q).
  - pose proof (Qfloor_le (q + (1 # 2))) as Hl.
    pose proof (Qlt_floor (q + (1 # 2))) as Hu.
    rewrite inject_Z_plus in Hu. change (inject_Z 1) with 1%Q in Hu.
    split; lra.
  - pose proof (Qfloor_le (- q + (1 # 2))) as Hl.
    pose proof (Qlt_floor (- q + (1 # 2))) as Hu.
    rewrite inject_Z_plus in Hu. change (inject_Z 1) with 1%Q in Hu.
    rewrite inject_Z_opp. split; lra.
Qed.

Lemma round_half_away_mono (p q : Q) :
  (p <= q)%Q -> round_half_away p <= round_half_away q.
Proof.
  intros Hpq. unfold round_half_away.
  destruct (Qle_bool 0 p) eqn:Hp, (Qle_bool 0 q) eqn:Hq.
  - apply Qfloor_resp_le. lra.
  - apply Qle_bool_iff in Hp.
    assert (~ (0 <= q)%Q) by (rewrite <- Qle_bool_iff; congruence). lra.
  - apply Qle_bool_iff in Hq.
    assert (Hn : ~ (0 <= p)%Q) by (rewrite <- Qle_bool_iff; congruence).
    assert (0 <= Qfloor (- p + (1 # 2))).
    { change 0 with (Qfloor 0). apply Qfloor_resp_le. lra. }
    assert (0 <= Qfloor (q + (1 # 2))).
    { change 0 with (Qfloor 0). apply Qfloor_resp_le. lra. }
    lia.
  - assert (Qfloor (- q + (1 # 2)) <= Qfloor (- p + (1 # 2)))
      by (apply Qfloor_resp_le; lra).
    lia.
Qed.

Lemma Zle_of_Qlt_succ (z b : Z) : (inject_Z z < inject_Z b + 1)%Q -> z <= b.
Proof.
  intros Hlt. apply Z.lt_succ_r. rewrite Zlt_Qlt.
  unfold Z.succ. rewrite inject_Z_plus. exact Hlt.
Qed.

(** The arithmetic of the s18.13 format: a value of magnitude at most
    2^18 - 1, scaled by 2^13 and rounded, fits 32 bits and is within
    2^-14 of the value once scaled back. *)
Lemma s1813_words (q iz : Q) :
  (- (262143) <= q <= 262143)%Q ->
  (- (1 # 2) <= iz - q * 8192 <= 1 # 2)%Q ->
  (iz < 2147483647 + 1)%Q /\ (- iz < 2147483648 + 1)%Q
  /\ (- (1 # 16384) <= iz * (1 # 8192) - q <= 1 # 16384)%Q.
Proof. intros Hq Hb. repeat split; lra. Qed.

(** Within the range of the format nothing saturates, and a word is within
    half a unit of the last place of the value it encodes. *)
Lemma s1813_quantization (q : Q) :
  (Qabs q <= 262143)%Q ->
  (Qabs (decode float_to_s1813_no_copy (encode float_to_s1813_no_copy q) - q)
   <= 1 # 16384)%Q.
Proof.
  intros Hq. apply Qabs_Qle_condition in Hq.
  pose proof (round_half_away_bound (q * 8192)) as Hb.
  apply Qabs_Qle_condition in Hb.
  destruct (s1813_words q _ Hq Hb) as (Hhi & Hlo & Herr).
  change (decode float_to_s1813_no_copy (encode float_to_s1813_no_copy q))
    with (inject_Z (Z.max (-2147483648)
                      (Z.min 2147483647 (round_half_away (q * 8192))))
          * (1 # 8192))%Q.
  set (z := round_half_away (q * 8192)) in *. clearbody z.
  assert (Hz : -2147483648 <= z <= 2147483647).
  { split.
    - assert (- z <= 2147483648); [|lia].
      apply Zle_of_Qlt_succ. rewrite inject_Z_opp. exact Hlo.
    - apply Zle_of_Qlt_succ. exact Hhi. }
  rewrite Z.min_r, Z.max_r by lia.
  apply Qabs_Qle_condition. exact Herr.
Qed.

Lemma Qabs_Rabs_le (a b : Q) :
  (Qabs a <= b)%Q -> (Rabs (Q2R a) <= Q2R b)%R.
Proof.
  intros Hab. apply Qabs_Qle_condition in Hab. destruct Hab as [Hl Hu].
  apply Qle_Rle in Hl, Hu. rewrite Q2R_opp in Hl.
  apply Rabs_le. split; assumption.
Qed.

End Rounding.

(** ** The logarithm table *)
Section Log_table.
Context `{Libm}.

Lemma shift_cases (s : Z) :
  0 <= s <= 13 -> In s [0;1;2;3;4;5;6;7;8;9;10;11;12;13].
Proof. intros Hs. cbn. lia. Qed.

(** The grid is the list of samples [0 .. size-1]: fourteen sizes, each
    checked by running [numpy.arange]. *)
Lemma ln_lut_x_eq (input_shift : Z) :
  0 <= input_shift <= 13 ->
  ln_lut_x input_shift =
  Ok (map (ln_lut_sample input_shift)
          (seq 0 (Z.to_nat (ln_lut_size input_shift)))).
Proof.
  intros Hs. apply shift_cases in Hs. cbn in Hs.
  repeat (destruct Hs as [<-|Hs]; [reflexivity|]). destruct Hs.
Qed.

Lemma samples_ok (input_shift : Z) :
  0 <= input_shift <= 13 ->
  forallb (sample_ok input_shift)
    (seq 0 (Z.to_nat (ln_lut_size input_shift))) = true.
Proof.
  intros Hs. apply shift_cases in Hs. cbn in Hs.
  repeat (destruct Hs as [<-|Hs]; [vm_compute; reflexivity|]). destruct Hs.
Qed.

(** No rounding on the grid: sample [i] is [1 + i / size]. *)
Lemma sample_exact (input_shift : Z) (i : nat) :
  0 <= input_shift <= 13 ->
  (i < Z.to_nat (ln_lut_size input_shift))%nat ->
  is_finite (ln_lut_sample input_shift i) = true
  /\ (F2Q (ln_lut_sample input_shift i)
      == 1 + inject_Z (Z.of_nat i) / inject_Z (ln_lut_size input_shift))%Q.
Proof.
  intros Hs Hi. pose proof (samples_ok input_shift Hs) as Hall.
  rewrite forallb_forall in Hall.
  specialize (Hall i). unfold sample_ok in Hall.
  rewrite andb_true_iff in Hall. rewrite <- Qeq_bool_iff.
  apply Hall. apply in_seq. lia.
Qed.

Lemma mapM_to_fixed (c : LazyArrayFloatToFixConverter) (l : list float) :
  forallb is_finite l = true ->
  mapM (to_fixed c) l = Ok (map (fun f => encode c (F2Q f)) l).
Proof.
  induction l as [|f l IH]; cbn [mapM forallb map]; [reflexivity|].
  rewrite andb_true_iff. intros [Hf Hl].
  assert (to_fixed c f = Ok (encode c (F2Q f))) as ->
    by (unfold to_fixed; now rewrite Hf).
  rewrite (IH Hl). reflexivity.
Qed.

Lemma Q2R_sample (input_shift : Z) (i : nat) :
  0 <= input_shift <= 13 ->
  (i < Z.to_nat (ln_lut_size input_shift))%nat ->
  Q2R (F2Q (ln_lut_sample input_shift i))
  = (1 + INR i / IZR (ln_lut_size input_shift))%R.
Proof.
  intros Hs Hi. destruct (sample_exact input_shift i Hs Hi) as [_ Hex].
  rewrite (Qeq_eqR _ _ Hex).
  assert (Hpos : 0 < ln_lut_size input_shift).
  { apply shift_cases in Hs. cbn in Hs.
    repeat (destruct Hs as [<-|Hs]; [reflexivity|]). destruct Hs. }
  rewrite Q2R_plus, Q2R_div.
  - rewrite INR_IZR_INZ. unfold Q2R, inject_Z. cbn. rewrite !Rinv_1, !Rmult_1_r. reflexivity.
  - unfold inject_Z, Qeq. cbn. lia.
Qed.



(** Every sample lies in [1, 2): the grid starts at 1 and stops short of 2. *)
Lemma ln_lut_samples_half_open (input_shift : Z) (i : nat) :
  0 <= input_shift <= 13 ->
  (i < Z.to_nat (ln_lut_size input_shift))%nat ->
  ln_lut_sample input_shift 0 = 1%float
  /\ (1 <= Q2R (F2Q (ln_lut_sample input_shift i)) < 2)%R.
Proof.
  intros Hs Hi. split; [reflexivity|].
  rewrite (Q2R_sample input_shift i Hs Hi).
  assert (Hpos : 0 < ln_lut_size input_shift) by lia.
  assert (Hn : (INR i < IZR (ln_lut_size input_shift))%R).
  { rewrite INR_IZR_INZ. apply IZR_lt. lia. }
  assert (Hp : (0 < IZR (ln_lut_size input_shift))%R) by now apply IZR_lt.
  assert (Hi0 : (0 <= INR i)%R) by apply pos_INR.
  split.
  - assert (0 <= INR i / IZR (ln_lut_size input_shift))%R; [|lra].
    apply Rmult_le_pos; [exact Hi0|]. left. now apply Rinv_0_lt_compat.
  - assert (INR i / IZR (ln_lut_size input_shift) < 1)%R; [|lra].
    apply (Rmult_lt_reg_r (IZR (ln_lut_size input_shift))); [exact Hp|].
    unfold Rdiv. rewrite Rmult_assoc, Rinv_l by lra. lra.
Qed.

(** C5, on the code.  With the shift of 6 that the layout uses, the grid has
    128 samples, the first is 1.0 and the last is 1.9921875: 1.0 is sampled
    and 2.0 is not, the opposite of the interval (1.0, 2.0] that the comment
    above [s1813_ln_lut] names. *)
Theorem ln_lut_6_samples_from_one :
  exists xs,
    ln_lut_x 6 = Ok xs
    /\ length xs = 128%nat
    /\ nth_error xs 0 = Some 1%float
    /\ nth_error xs 127 = Some 1.9921875%float
    /\ forallb (fun x => (1 <=? x)%float && (x <? 2)%float) xs = true
    /\ ~ In 2%float xs.
Proof.
  exists (map (ln_lut_sample 6) (seq 0 128)).
  assert (Hall : forallb (fun x => (1 <=? x)%float && (x <? 2)%float)
                   (map (ln_lut_sample 6) (seq 0 128)) = true)
    by (vm_compute; reflexivity).
  split; [|split; [|split; [|split; [|split]]]].
  - apply (ln_lut_x_eq 6). lia.
  - now rewrite length_map, length_seq.
  - reflexivity.
  - vm_compute. reflexivity.
  - exact Hall.
  - intros Hin. rewrite forallb_forall in Hall. specialize (Hall _ Hin).
    vm_compute in Hall. discriminate.
Qed.

End Log_table.

(** ** The exponential-decay table *)
Section Decay.
#[local] Open Scope R_scope.

Lemma Int_part_bounds (x : R) : IZR (Int_part x) <= x < IZR (Int_part x) + 1.
Proof. destruct (base_Int_part x) as [Hl Hu]. split; lra. Qed.

Lemma Int_part_mono (x y : R) : x <= y -> (Int_part x <= Int_part y)%Z.
Proof.
  intros Hxy. pose proof (Int_part_bounds x) as Hx.
  pose proof (Int_part_bounds y) as Hy.
  apply Z.lt_succ_r, lt_IZR. rewrite succ_IZR. lra.
Qed.

Lemma Int_part_nonneg (x : R) : 0 <= x -> (0 <= Int_part x)%Z.
Proof.
  intros Hx. replace 0%Z with (Int_part 0); [now apply Int_part_mono|].
  symmetry. apply Int_part_spec. simpl. lra.
Qed.

Lemma round_half_away_R_mono (x y : R) :
  x <= y -> (round_half_away_R x <= round_half_away_R y)%Z.
Proof.
  intros Hxy. unfold round_half_away_R.
  destruct (Rle_dec 0 x) as [Hx|Hx], (Rle_dec 0 y) as [Hy|Hy].
  - apply Int_part_mono. lra.
  - lra.
  - assert (0 <= Int_part (- x + / 2))%Z by (apply Int_part_nonneg; lra).
    assert (0 <= Int_part (y + / 2))%Z by (apply Int_part_nonneg; lra).
    lia.
  - assert (Int_part (- y + / 2) <= Int_part (- x + / 2))%Z
      by (apply Int_part_mono; lra).
    lia.
Qed.

Lemma round_half_away_R_IZR (k : Z) : round_half_away_R (IZR k) = k.
Proof.
  unfold round_half_away_R. destruct (Rle_dec 0 (IZR k)) as [Hk|Hk].
  - symmetry. apply Int_part_spec. lra.
  - assert (- k = Int_part (- IZR k + / 2))%Z; [|lia].
    apply Int_part_spec. rewrite opp_IZR. lra.
Qed.

(** Below one half nothing is left of a non-negative value. *)
Lemma round_half_away_R_zero (x : R) :
  0 <= x < / 2 -> round_half_away_R x = 0%Z.
Proof.
  intros Hx. unfold round_half_away_R.
  destruct (Rle_dec 0 x) as [_|Hn]; [|lra].
  symmetry. apply Int_part_spec. simpl. lra.
Qed.

Lemma saturate_mono (c : LazyArrayFloatToFixConverter) (a b : Z) :
  (a <= b)%Z -> (saturate c a <= saturate c b)%Z.
Proof. unfold saturate. lia. Qed.

Lemma encode_R_mono (c : LazyArrayFloatToFixConverter) (x y : R) :
  x <= y -> (encode_R c x <= encode_R c y)%Z.
Proof.
  intros Hxy. unfold encode_R. apply saturate_mono, round_half_away_R_mono.
  apply Rmult_le_compat_r; [|exact Hxy].
  apply IZR_le, Z.pow_nonneg. lia.
Qed.

Lemma exp_mono (x y : R) : x <= y -> exp x <= exp y.
Proof.
  intros [Hlt| ->]; [left; now apply exp_increasing|right; reflexivity].
Qed.

Lemma decay_antitone (tau : R) (time_shift : Z) (i j : nat) :
  0 < tau -> (i <= j)%nat -> decay tau time_shift j <= decay tau time_shift i.
Proof.
  intros Htau Hij. unfold decay. apply exp_mono.
  assert (Hs : 0 <= IZR (2 ^ time_shift)) by (apply IZR_le, Z.pow_nonneg; lia).
  assert (Hinr : INR i <= INR j) by now apply le_INR.
  unfold Rdiv. apply Rmult_le_compat_r; [left; now apply Rinv_0_lt_compat|].
  apply Ropp_le_contravar. now apply Rmult_le_compat_r.
Qed.

Lemma decay_range (tau : R) (time_shift : Z) (i : nat) :
  0 < tau -> 0 < decay tau time_shift i <= 1.
Proof.
  intros Htau. unfold decay. split; [apply exp_pos|].
  rewrite <- exp_0. apply exp_mono.
  assert (Hs : 0 <= IZR (2 ^ time_shift)) by (apply IZR_le, Z.pow_nonneg; lia).
  assert (Hi : 0 <= INR i) by apply pos_INR.
  assert (0 <= INR i * IZR (2 ^ time_shift) / tau).
  { unfold Rdiv. apply Rmult_le_pos; [now apply Rmult_le_pos|].
    left. now apply Rinv_0_lt_compat. }
  unfold Rdiv in *. lra.
Qed.

Lemma decay_0 (tau : R) (time_shift : Z) : decay tau time_shift 0 = 1.
Proof.
  unfold decay. simpl. rewrite Rmult_0_l, Ropp_0. unfold Rdiv.
  rewrite Rmult_0_l. apply exp_0.
Qed.


Lemma nth_error_map_seq {A} (f : nat -> A) (n i : nat) (a : A) :
  nth_error (map f (seq 0 n)) i = Some a -> (i < n)%nat /\ a = f i.
Proof.
  intros Hnth.
  assert (Hi : (i < n)%nat).
  { rewrite <- (length_seq n 0), <- (length_map f). apply nth_error_Some. congruence. }
  split; [exact Hi|].
  rewrite nth_error_map, nth_error_seq in Hnth.
  destruct (Nat.ltb_spec i n); [|lia]. cbn in Hnth. congruence.
Qed.

(** The words of the s6.9 table: a decay multiplier scaled by 512 and rounded
    lies between 0 and 512, where nothing saturates. *)
Lemma s69_decay_word (tau : R) (time_shift : Z) (i : nat) :
  0 < tau ->
  encode_R float_to_s69_no_copy (decay tau time_shift i)
  = round_half_away_R (decay tau time_shift i * 512)
  /\ (0 <= round_half_away_R (decay tau time_shift i * 512) <= 512)%Z.
Proof.
  intros Htau. destruct (decay_range tau time_shift i Htau) as [Hpos Hle].
  assert (Hr : (0 <= round_half_away_R (decay tau time_shift i * 512) <= 512)%Z).
  { split.
    - rewrite <- (round_half_away_R_IZR 0). apply round_half_away_R_mono. lra.
    - rewrite <- (round_half_away_R_IZR 512) at 2.
      apply round_half_away_R_mono. lra. }
  split; [|exact Hr].
  unfold encode_R, saturate, min_value, max_value.
  change (IZR (2 ^ n_frac float_to_s69_no_copy)) with 512.
  change (signed float_to_s69_no_copy) with true. cbv iota.
  change (- 2 ^ (n_bits float_to_s69_no_copy - 1))%Z with (-32768)%Z.
  change (2 ^ (n_bits float_to_s69_no_copy - 1) - 1)%Z with 32767%Z.
  lia.
Qed.

Lemma round_half_away_R_half : round_half_away_R (/ 2) = 1%Z.
Proof.
  unfold round_half_away_R. destruct (Rle_dec 0 (/ 2)) as [_|Hn]; [|lra].
  symmetry. apply Int_part_spec. simpl. lra.
Qed.

(** C6, as amended.  For every [tau > 0] the s6.9 table is non-increasing and
    every decoded entry lies in the closed interval [0, 1]: the first is
    exactly 1, and an entry is 0 exactly when the decay it samples is below
    2^-10, half of the smallest positive s6.9 value. *)
Theorem exp_decay_table_monotone_in_unit
  (tau : R) (num_entries : nat) (time_shift : Z) :
  0 < tau ->
  exists table,
    exp_decay_table float_to_s69_no_copy tau num_entries time_shift = Ok table
    /\ length table = num_entries
    /\ (forall i j ei ej, (i <= j)%nat ->
          nth_error table i = Some ei -> nth_error table j = Some ej ->
          (ej <= ei)%Z)
    /\ (forall i e, nth_error table i = Some e ->
          0 <= decode_R float_to_s69_no_copy e <= 1
          /\ (e = 0%Z <-> decay tau time_shift i < / 1024))
    /\ (forall e, nth_error table 0 = Some e ->
          decode_R float_to_s69_no_copy e = 1).
Proof.
  intros Htau.
  exists (map (fun i => encode_R float_to_s69_no_copy (decay tau time_shift i))
              (seq 0 num_entries)).
  split; [|split; [|split; [|split]]].
  - unfold exp_decay_table. destruct (Req_dec_T tau 0) as [Hz|_]; [lra|reflexivity].
  - now rewrite length_map, length_seq.
  - intros i j ei ej Hij Hi Hj.
    apply nth_error_map_seq in Hi as [_ ->], Hj as [_ ->].
    apply encode_R_mono, decay_antitone; assumption.
  - intros i e Hi. apply nth_error_map_seq in Hi as [_ ->].
    destruct (s69_decay_word tau time_shift i Htau) as [-> [Hlo Hhi]].
    destruct (decay_range tau time_shift i Htau) as [Hpos Hle].
    split.
    + unfold decode_R. change (IZR (2 ^ n_frac float_to_s69_no_copy)) with 512.
      apply IZR_le in Hlo, Hhi. lra.
    + split.
      * intros Hz. destruct (Rlt_le_dec (decay tau time_shift i) (/ 1024)) as [Hlt|Hge];
          [exact Hlt|].
        assert (1 <= round_half_away_R (decay tau time_shift i * 512))%Z; [|lia].
        rewrite <- round_half_away_R_half. apply round_half_away_R_mono. lra.
      * intros Hlt. apply round_half_away_R_zero. lra.
  - intros e He. apply nth_error_map_seq in He as [_ ->].
    destruct (s69_decay_word tau time_shift 0 Htau) as [-> _].
    rewrite decay_0, Rmult_1_l, round_half_away_R_IZR.
    unfold decode_R. change (IZR (2 ^ n_frac float_to_s69_no_copy)) with 512.
    lra.
Qed.

Lemma exp_above_1024 : 1024 < exp (127 / 5).
Proof.
  replace (127 / 5) with (127 / 20 + 127 / 20 + (127 / 20 + 127 / 20)) by lra.
  rewrite !exp_plus.
  assert (He : 1 + 127 / 20 < exp (127 / 20)) by (apply exp_ineq1; lra).
  set (e := exp (127 / 20)) in *. clearbody e.
  assert (H2 : 54 < e * e) by nra.
  nra.
Qed.

(** C6, as stated, fails: with the default [tau_zi] of 5 ms the last of the
    128 entries is 0, which is not in (0, 1]. *)
Lemma default_decay_table_ends_in_zero :
  exists table,
    exp_decay_table float_to_s69_no_copy 5 128 0 = Ok table
    /\ nth_error table 127 = Some 0%Z
    /\ decode_R float_to_s69_no_copy 0 = 0.
Proof.
  exists (map (fun i => encode_R float_to_s69_no_copy (decay 5 0 i)) (seq 0 128)).
  split; [|split].
  - unfold exp_decay_table. destruct (Req_dec_T 5 0) as [Hz|_]; [lra|reflexivity].
  - rewrite nth_error_map, nth_error_seq. cbn [Nat.ltb Nat.leb option_map Nat.add].
    f_equal.
    destruct (s69_decay_word 5 0 127 ltac:(lra)) as [-> _].
    destruct (decay_range 5 0 127 ltac:(lra)) as [Hpos _].
    apply round_half_away_R_zero.
    assert (decay 5 0 127 < / 1024); [|lra].
    unfold decay. change (2 ^ 0)%Z with 1%Z.
    replace (- (INR 127 * 1) / 5) with (- (127 / 5)).
    + rewrite exp_Ropp. apply Rinv_lt_contravar; [|exact exp_above_1024].
      apply Rmult_lt_0_compat; [lra|apply exp_pos].
    + rewrite INR_IZR_INZ. change (Z.of_nat 127) with 127%Z. lra.
  - unfold decode_R. change (IZR (2 ^ n_frac float_to_s69_no_copy)) with 512. lra.
Qed.

Lemma Q2R_inject_Z (z : Z) : Q2R (inject_Z z) = IZR z.
Proof. unfold Q2R, inject_Z. cbn. lra. Qed.

Lemma Q2R_half : Q2R (1 # 2) = / 2.
Proof. unfold Q2R. cbn. lra. Qed.

Lemma Int_part_Q2R (q : Q) : Int_part (Q2R q) = Qfloor q.
Proof.
  symmetry. apply Int_part_spec.
  pose proof (Qle_Rle _ _ (Qfloor_le q)) as Hl.
  pose proof (Qlt_Rlt _ _ (Qlt_floor q)) as Hu.
  rewrite Q2R_inject_Z in Hl, Hu. rewrite plus_IZR in Hu. lra.
Qed.

(** The two roundings agree on the rationals. *)
Lemma round_half_away_R_Q2R (q : Q) :
  round_half_away_R (Q2R q) = round_half_away q.
Proof.
  unfold round_half_away_R, round_half_away.
  destruct (Qle_bool 0 q) eqn:Hq.
  - apply Qle_bool_iff, Qle_Rle in Hq. rewrite RMicromega.Q2R_0 in Hq.
    destruct (Rle_dec 0 (Q2R q)) as [_|Hn]; [|lra].
    rewrite <- Q2R_half, <- Q2R_plus. apply Int_part_Q2R.
  - assert (Hlt : (q < 0)%Q).
    { apply Qnot_le_lt. rewrite <- Qle_bool_iff. congruence. }
    apply Qlt_Rlt in Hlt. rewrite RMicromega.Q2R_0 in Hlt.
    destruct (Rle_dec 0 (Q2R q)) as [Hn|_]; [lra|].
    rewrite <- Q2R_half, <- Q2R_opp, <- Q2R_plus. now rewrite Int_part_Q2R.
Qed.

Lemma encode_R_Q2R (c : LazyArrayFloatToFixConverter) (q : Q) :
  encode_R c (Q2R q) = encode c q.
Proof.
  unfold encode_R, encode. f_equal.
  rewrite <- Q2R_inject_Z, <- Q2R_mult. apply round_half_away_R_Q2R.
Qed.

Lemma exp_decay_table_monotone_in_unit_witness :
  0 < 5
  /\ exists table,
       exp_decay_table float_to_s69_no_copy 5 128 0 = Ok table
       /\ length table = 128%nat
       /\ (forall i j ei ej, (i <= j)%nat ->
             nth_error table i = Some ei -> nth_error table j = Some ej ->
             (ej <= ei)%Z)
       /\ (forall i e, nth_error table i = Some e ->
             0 <= decode_R float_to_s69_no_copy e <= 1
             /\ (e = 0%Z <-> decay 5 0 i < / 1024))
       /\ (forall e, nth_error table 0 = Some e ->
             decode_R float_to_s69_no_copy e = 1).
Proof.
  assert (H5 : 0 < 5) by lra.
  split; [exact H5|].
  exact (exp_decay_table_monotone_in_unit 5 128 0 H5).
Defined.

End Decay.


(** ** The helpers of lines 44-51 *)
Section Helper_functions.
Context `{Libm}.
Import BCPNNSynapse.

Lemma SFadd_comm (x y : spec_float) : SF64add x y = SF64add y x.
Proof.
  destruct x as [sx|sx| |sx mx ex], y as [sy|sy| |sy my ey]; cbn;
    try reflexivity; try (destruct sx, sy; reflexivity).
  rewrite (Z.min_comm ex ey), Z.add_comm. reflexivity.
Qed.

Lemma float_add_comm (x y : float) : (x + y = y + x)%float.
Proof.
  rewrite <- (SF2Prim_Prim2SF (x + y)), <- (SF2Prim_Prim2SF (y + x)).
  now rewrite !add_spec, SFadd_comm.
Qed.

Lemma mul_zero_l (z f : float) :
  is_zero z = true -> is_finite f = true -> is_zero (z * f) = true.
Proof.
  intros Hz Hf. destruct (zero_cases z Hz) as [sz Hsz].
  assert (exists s, Prim2SF (z * f) = S754_zero s) as [s Hs];
    [|exact (zero_intro _ s Hs)].
  rewrite mul_spec, Hsz.
  destruct (finite_cases f Hf) as [[sf ->]|(sf & mf & ef & ->)]; cbn; eauto.
Qed.


(** On Python floats each of [spike_height], [tau_zij] and [a] returns a
    float or raises [ZeroDivisionError]: no other exception leaves them, and
    infinities and NaNs in the arguments are passed through. *)
Theorem helpers_float_or_zero_division (h x y : float) :
  (bcpnn.spike_height (VFloat x) (VFloat y) = Raise ZeroDivisionError
   \/ exists f, bcpnn.spike_height (VFloat x) (VFloat y) = Ok (VFloat f))
  /\ (bcpnn.tau_zij (VFloat x) (VFloat y) = Raise ZeroDivisionError
      \/ exists f, bcpnn.tau_zij (VFloat x) (VFloat y) = Ok (VFloat f))
  /\ (bcpnn.a (VFloat h) (VFloat x) (VFloat y) = Raise ZeroDivisionError
      \/ exists f, bcpnn.a (VFloat h) (VFloat x) (VFloat y) = Ok (VFloat f)).
Proof.
  split; [|split].
  - unfold bcpnn.spike_height. cbn.
    destruct (_ =? zero)%float; cbn; eauto.
  - unfold bcpnn.tau_zij. cbn.
    destruct (x =? zero)%float; cbn; [eauto|].
    destruct (y =? zero)%float; cbn; [eauto|].
    destruct (_ =? zero)%float; cbn; eauto.
  - unfold bcpnn.a. cbn. destruct (_ =? zero)%float; cbn; eauto.
Qed.

(** [spike_height] has no guard: with finite floats, a zero time constant or a
    zero rate makes the product zero and the division raise
    [ZeroDivisionError]. *)
Theorem spike_height_zero_raises (tau_z f_max : float) :
  is_finite tau_z = true ->
  is_finite f_max = true ->
  is_zero tau_z = true \/ is_zero f_max = true ->
  bcpnn.spike_height (VFloat tau_z) (VFloat f_max) = Raise ZeroDivisionError.
Proof.
  intros Ht Hf Hz.
  assert (Hd : is_zero (tau_z * f_max) = true).
  { destruct Hz as [Hz|Hz]; [now apply mul_zero_l|now apply mul_zero]. }
  unfold bcpnn.spike_height. cbn. unfold is_zero in Hd. now rewrite Hd.
Qed.

(** [a] has no guard either: with finite floats, [tau_z == tau_p] makes the
    divisor zero and the call raise [ZeroDivisionError], whatever the spike
    height. *)
Theorem a_equal_time_constants_raises (spike_height tau_z tau_p : float) :
  is_finite tau_z = true ->
  is_finite tau_p = true ->
  (tau_z =? tau_p)%float = true ->
  bcpnn.a (VFloat spike_height) (VFloat tau_z) (VFloat tau_p)
  = Raise ZeroDivisionError.
Proof.
  intros Hz Hp Heq. unfold bcpnn.a. cbn.
  pose proof (sub_eq_zero tau_z tau_p Hz Hp Heq) as Hd. unfold is_zero in Hd.
  now rewrite Hd.
Qed.

(** The formula string of [a_ij] spells out [tau_zij] instead of calling it:
    its divisor is [f_max ** 2] times the helper's result on [tau_zi] and
    [tau_zj] less [tau_p], with the same exceptions in the same order. *)
Theorem a_ij_uses_tau_zij (P : ParameterSet) :
  native (to_dict P) "a_ij" =
  (s ← py_binop Add (tau_zi P) (tau_zj P);
   n ← py_binop Div (VFloat 1000000) s;
   sq ← py_binop Pow (f_max P) (VInt 2);
   h ← bcpnn.tau_zij (tau_zi P) (tau_zj P);
   d ← py_binop Sub h (tau_p P);
   m ← py_binop Mul sq d;
   py_binop Div n m).
Proof.
  rewrite (native_eval P "a_ij" _ eq_refl). destruct P. unfold bcpnn.tau_zij.
  cbn -[py_binop].
  repeat match goal with
         | |- context [mbind _ (py_binop ?op ?x ?y)] =>
             destruct (py_binop op x y); cbn -[py_binop]; try reflexivity
         end.
Qed.

End Helper_functions.

Lemma spike_height_zero_raises_witness :
  is_finite 0 = true
  /\ is_finite 20 = true
  /\ (is_zero 0 = true \/ is_zero 20 = true)
  /\ @bcpnn.spike_height first_order_libm (VFloat 0) (VFloat 20)
     = Raise ZeroDivisionError.
Proof.
  split; [reflexivity|]. split; [reflexivity|]. split; [left; reflexivity|].
  exact (@spike_height_zero_raises first_order_libm 0 20 eq_refl eq_refl
           (or_introl eq_refl)).
Defined.

Lemma a_equal_time_constants_raises_witness :
  is_finite 5 = true
  /\ (5 =? 5)%float = true
  /\ @bcpnn.a first_order_libm (VFloat 10) (VFloat 5) (VFloat 5)
     = Raise ZeroDivisionError.
Proof.
  split; [reflexivity|]. split; [reflexivity|].
  exact (@a_equal_time_constants_raises first_order_libm 10 5 5
           eq_refl eq_refl eq_refl).
Defined.

(** ** The tables of the class: [default_parameters], [translations],
    [plasticity_param_map] and [comparable_param_names] *)
Section Tables_of_the_class.
Context `{Libm} `{LazyParamMap}.
Import BCPNNSynapse.

(** [translations] has one entry for each name of [default_parameters], the
    two placeholders included, and the thirteen native names are distinct. *)
Theorem translations_cover_default_parameters :
  (forall n, In n (keys default_parameters) <-> In n (keys translations))
  /\ length (keys translations) = length (keys default_parameters)
  /\ List.NoDup (map (fun kv => translated_name (snd kv)) translations)
  /\ to_dict defaults = default_parameters.
Proof.
  split; [|split; [|split]].
  - intros n. cbn. tauto.
  - reflexivity.
  - cbn. repeat (constructor; [cbn; intuition discriminate|]). constructor.
  - reflexivity.
Qed.

(** Translating a parameter space never raises: every user name has an entry,
    the result holds the thirteen native names, once each, and among them
    every name [plasticity_param_map] reads.  A formula that fails does so
    when its native parameter is read. *)
Theorem translate_total (P : ParameterSet) :
  exists N,
    translate (to_dict P) = Ok N
    /\ keys N = [ "weight"; "delay"; "tau_zi"; "tau_zj"; "tau_p"; "a_i"; "phi";
                  "w_max"; "a_j"; "a_ij"; "epsilon"; "epsilon_squared"; "mode" ]
    /\ List.NoDup (keys N)
    /\ Forall (fun name => exists a, dict_get name N = Some a)
         (layout_names plasticity_param_map).
Proof.
  eexists. split; [|split; [|split]].
  - unfold translate.
    cbn [keys map fst to_dict mapM dict_get translations]. cbn -[eval]. reflexivity.
  - reflexivity.
  - cbn. repeat (constructor; [cbn; intuition discriminate|]). constructor.
  - cbn -[eval]. repeat (constructor; [eexists; reflexivity|]). constructor.
Qed.

(** With the three flags Python booleans, [mode] is an int from 0 to 7 whose
    bits 0, 1 and 2 are [weights_enabled], [plasticity_enabled] and
    [bias_enabled]. *)
Theorem mode_is_a_bitmask (P : ParameterSet) (we pe be : bool) :
  weights_enabled P = VBool we ->
  plasticity_enabled P = VBool pe ->
  bias_enabled P = VBool be ->
  exists m,
    native (to_dict P) "mode" = Ok (VInt m)
    /\ 0 <= m <= 7
    /\ Z.testbit m 0 = we /\ Z.testbit m 1 = pe /\ Z.testbit m 2 = be.
Proof.
  intros Hw Hp Hb. rewrite (native_eval P "mode" _ eq_refl).
  destruct P; cbn in Hw, Hp, Hb; subst. cbn.
  eexists. split; [reflexivity|].
  destruct we, pe, be; cbn; repeat split; lia.
Qed.

(** [epsilon_squared] is the square of what [epsilon] evaluates to, and fails
    as [epsilon] does when [epsilon] fails. *)
Theorem epsilon_squared_squares_epsilon (P : ParameterSet) :
  native (to_dict P) "epsilon_squared" =
  (e ← native (to_dict P) "epsilon"; py_binop Pow e (VInt 2)).
Proof.
  rewrite (native_eval P "epsilon_squared" _ eq_refl),
    (native_eval P "epsilon" _ eq_refl).
  destruct P. cbn -[py_binop].
  repeat match goal with
         | |- context [mbind _ (py_binop ?op ?x ?y)] =>
             destruct (py_binop op x y); cbn -[py_binop]; try reflexivity
         end.
Qed.

(** What each derived parameter depends on: [a_i] on [f_max], [tau_zi] and
    [tau_p]; [a_j] on [f_max], [tau_zj] and [tau_p]; [a_ij] on all four;
    [epsilon] and [epsilon_squared] on [f_max] and [tau_p]; [mode] on the
    three flags.  Nothing else of the parameter space reaches them. *)
Theorem natives_read_their_names (P1 P2 : ParameterSet) :
  (f_max P1 = f_max P2 -> tau_zi P1 = tau_zi P2 -> tau_p P1 = tau_p P2 ->
   native (to_dict P1) "a_i" = native (to_dict P2) "a_i")
  /\ (f_max P1 = f_max P2 -> tau_zj P1 = tau_zj P2 -> tau_p P1 = tau_p P2 ->
      native (to_dict P1) "a_j" = native (to_dict P2) "a_j")
  /\ (f_max P1 = f_max P2 -> tau_zi P1 = tau_zi P2 -> tau_zj P1 = tau_zj P2 ->
      tau_p P1 = tau_p P2 ->
      native (to_dict P1) "a_ij" = native (to_dict P2) "a_ij")
  /\ (f_max P1 = f_max P2 -> tau_p P1 = tau_p P2 ->
      native (to_dict P1) "epsilon" = native (to_dict P2) "epsilon"
      /\ native (to_dict P1) "epsilon_squared"
         = native (to_dict P2) "epsilon_squared")
  /\ (weights_enabled P1 = weights_enabled P2 ->
      plasticity_enabled P1 = plasticity_enabled P2 ->
      bias_enabled P1 = bias_enabled P2 ->
      native (to_dict P1) "mode" = native (to_dict P2) "mode").
Proof.
  destruct P1, P2; cbn [f_max tau_zi tau_zj tau_p weights_enabled
                          plasticity_enabled bias_enabled].
  split; [|split; [|split; [|split]]].
  - intros -> -> ->. now rewrite !(native_eval _ "a_i" _ eq_refl).
  - intros -> -> ->. now rewrite !(native_eval _ "a_j" _ eq_refl).
  - intros -> -> -> ->. now rewrite !(native_eval _ "a_ij" _ eq_refl).
  - intros -> ->. split.
    + now rewrite !(native_eval _ "epsilon" _ eq_refl).
    + now rewrite !(native_eval _ "epsilon_squared" _ eq_refl).
  - intros -> -> ->. now rewrite !(native_eval _ "mode" _ eq_refl).
Qed.

(** [comparable_param_names] is exactly the set of user parameters that the
    formulas behind the names of [plasticity_param_map] read. *)
Theorem comparable_names_are_the_names_read (n : string) :
  In n comparable_param_names <->
  exists name e, In name (layout_names plasticity_param_map)
                 /\ forward_of name = Some e /\ In n (names e).
Proof.
  split.
  - intros Hn. cbn in Hn.
    repeat (destruct Hn as [<-|Hn];
            [first [ exists "a_i"; eexists; split; [cbn; tauto|];
                     split; [reflexivity|]; cbn; tauto
                   | exists "a_j"; eexists; split; [cbn; tauto|];
                     split; [reflexivity|]; cbn; tauto
                   | exists "phi"; eexists; split; [cbn; tauto|];
                     split; [reflexivity|]; cbn; tauto
                   | exists "w_max"; eexists; split; [cbn; tauto|];
                     split; [reflexivity|]; cbn; tauto
                   | exists "mode"; eexists; split; [cbn; tauto|];
                     split; [reflexivity|]; cbn; tauto ]|]).
    destruct Hn.
  - intros (name & e & Hname & He & Hn). cbn in Hname.
    repeat (destruct Hname as [<-|Hname];
            [vm_compute in He; injection He as <-;
             vm_compute in Hn; vm_compute; tauto|]).
    destruct Hname.
Qed.

(** Python's scalar arithmetic and numpy's agree where Python does not raise:
    when [a_i], [a_j] or [epsilon] of scalar parameters is a float, the same
    parameters given as arrays of one element yield the array of that
    float. *)
Theorem scalar_agrees_with_one_row (P : Spec.user_params) (we pe be : bool)
  (name : string) (x : value) :
  In name ["a_i"; "a_j"; "epsilon"] ->
  native (to_dict (Spec.parameters P)) name = Ok x ->
  exists f,
    x = VFloat f
    /\ native (to_dict (Spec.per_synapse [P] we pe be)) name = Ok (VArray [f]).
Proof.
  intros Hn. unfold native. rewrite translate_scalars, translate_rows.
  destruct Hn as [<-|[<-|[<-|[]]]]; cbn;
    unfold Spec.a_i, Spec.a_j, Spec.epsilon, float_binop; intros Hx;
    match type of Hx with
    | context [if ?c then _ else _] =>
        destruct c; cbn in Hx; [discriminate|];
        injection Hx as <-; eexists; split; reflexivity
    end.
Qed.

(** The formulas of [epsilon] and [epsilon_squared] hold no guard: with
    finite Python floats, a zero [f_max] or a zero [tau_p] makes both raise
    [ZeroDivisionError]. *)
Theorem zero_rate_or_time_constant_raises (P : Spec.user_params) :
  is_finite (Spec.f_max P) = true ->
  is_finite (Spec.tau_p P) = true ->
  is_zero (Spec.f_max P) = true \/ is_zero (Spec.tau_p P) = true ->
  native (to_dict (Spec.parameters P)) "epsilon" = Raise ZeroDivisionError
  /\ native (to_dict (Spec.parameters P)) "epsilon_squared"
     = Raise ZeroDivisionError.
Proof.
  intros Hf Hp Hz.
  assert (Hd : is_zero (Spec.f_max P * Spec.tau_p P) = true).
  { destruct Hz as [Hz|Hz]; [now apply mul_zero_l|now apply mul_zero]. }
  unfold native. rewrite translate_scalars. cbn.
  unfold Spec.epsilon_squared, Spec.epsilon, float_binop.
  unfold is_zero in *. rewrite Hd. split; reflexivity.
Qed.

End Tables_of_the_class.

Lemma mode_is_a_bitmask_witness :
  BCPNNSynapse.weights_enabled defaults = VBool true
  /\ BCPNNSynapse.plasticity_enabled defaults = VBool true
  /\ BCPNNSynapse.bias_enabled defaults = VBool true
  /\ exists m,
       @BCPNNSynapse.native first_order_libm (BCPNNSynapse.to_dict defaults) "mode"
       = Ok (VInt m)
       /\ 0 <= m <= 7
       /\ Z.testbit m 0 = true /\ Z.testbit m 1 = true /\ Z.testbit m 2 = true.
Proof.
  split; [reflexivity|]. split; [reflexivity|]. split; [reflexivity|].
  exact (@mode_is_a_bitmask first_order_libm defaults true true true
           eq_refl eq_refl eq_refl).
Defined.

Lemma scalar_agrees_with_one_row_witness :
  In "a_j" ["a_i"; "a_j"; "epsilon"]
  /\ @BCPNNSynapse.native first_order_libm
       (BCPNNSynapse.to_dict (Spec.parameters boundary)) "a_j"
     = Ok (VFloat (1000 / (20 * (5 - 1000))))
  /\ exists f,
       VFloat (1000 / (20 * (5 - 1000))) = VFloat f
       /\ @BCPNNSynapse.native first_order_libm
            (BCPNNSynapse.to_dict (Spec.per_synapse [boundary] true true true))
            "a_j"
          = Ok (VArray [f]).
Proof.
  assert (Hn : In "a_j" ["a_i"; "a_j"; "epsilon"]) by (right; left; reflexivity).
  assert (Hx : @BCPNNSynapse.native first_order_libm
                 (BCPNNSynapse.to_dict (Spec.parameters boundary)) "a_j"
               = Ok (VFloat (1000 / (20 * (5 - 1000)))))
    by (vm_compute; reflexivity).
  split; [exact Hn|]. split; [exact Hx|].
  exact (@scalar_agrees_with_one_row first_order_libm boundary true true true
           "a_j" _ Hn Hx).
Defined.

Lemma zero_rate_or_time_constant_raises_witness :
  let P := {| Spec.weight := 0; Spec.delay := None;
              Spec.tau_zi := 5; Spec.tau_zj := 5; Spec.tau_p := 1000;
              Spec.f_max := 0; Spec.phi := 0.05; Spec.w_max := 2;
              Spec.weights_enabled := true; Spec.plasticity_enabled := true;
              Spec.bias_enabled := true |} in
  is_zero (Spec.f_max P) = true
  /\ @BCPNNSynapse.native first_order_libm
       (BCPNNSynapse.to_dict (Spec.parameters P)) "epsilon"
     = Raise ZeroDivisionError
  /\ @BCPNNSynapse.native first_order_libm
       (BCPNNSynapse.to_dict (Spec.parameters P)) "epsilon_squared"
     = Raise ZeroDivisionError.
Proof.
  split; [reflexivity|].
  exact (@zero_rate_or_time_constant_raises first_order_libm
           {| Spec.weight := 0; Spec.delay := None;
              Spec.tau_zi := 5; Spec.tau_zj := 5; Spec.tau_p := 1000;
              Spec.f_max := 0; Spec.phi := 0.05; Spec.w_max := 2;
              Spec.weights_enabled := true; Spec.plasticity_enabled := true;
              Spec.bias_enabled := true |}
           eq_refl eq_refl (or_introl eq_refl)).
Defined.

(** ** [s1813] called again *)
Section Objects_again.

(** Every call of [s1813] converts a copy of its own: a second call on the
    same array returns another new object, holding the same words as the
    first result, and leaves the first result and the array as they were. *)
Theorem s1813_twice (σ : store) (values : loc) (v : value)
  (kwargs : dict value) :
  σ !! values = Some (OValue v) ->
  match s1813 values kwargs σ with
  | Ok (r1, σ1) =>
      exists r2 σ2,
        s1813 values kwargs σ1 = Ok (r2, σ2)
        /\ r2 <> r1
        /\ σ2 !! r2 = σ1 !! r1
        /\ σ2 !! r1 = σ1 !! r1
        /\ σ2 !! values = Some (OValue v)
  | Raise e => convert float_to_s1813_no_copy v = Raise e
  end.
Proof.
  intros Hv. rewrite (s1813_store σ values v kwargs Hv).
  destruct (convert float_to_s1813_no_copy v) as [a|e] eqn:Ha; cbn; [|reflexivity].
  set (r1 := fresh (dom σ)).
  assert (Hne : r1 <> values).
  { apply fresh_not_held, elem_of_dom. eauto. }
  assert (Hv1 : <[r1:=OFixed a]> σ !! values = Some (OValue v))
    by now rewrite lookup_insert_ne.
  set (σ1 := <[r1:=OFixed a]> σ) in *.
  assert (Hr1 : r1 ∈ dom σ1).
  { apply elem_of_dom. exists (OFixed a). apply lookup_insert_eq. }
  exists (fresh (dom σ1)), (<[fresh (dom σ1):=OFixed a]> σ1).
  split; [|split; [|split; [|split]]].
  - rewrite (s1813_store σ1 values v kwargs Hv1), Ha. reflexivity.
  - now apply fresh_not_held.
  - rewrite lookup_insert_eq. symmetry. apply lookup_insert_eq.
  - rewrite lookup_insert_ne; [reflexivity|]. now apply fresh_not_held.
  - rewrite lookup_insert_ne; [exact Hv1|].
    apply fresh_not_held, elem_of_dom. eauto.
Qed.

End Objects_again.

Lemma s1813_twice_witness :
  let σ : store := {[ 1%positive := OValue (VFloat 0.05) ]} in
  σ !! 1%positive = Some (OValue (VFloat 0.05))
  /\ (match s1813 1%positive [] σ with
      | Ok (r1, σ1) =>
          exists r2 σ2,
            s1813 1%positive [] σ1 = Ok (r2, σ2)
            /\ r2 <> r1
            /\ σ2 !! r2 = σ1 !! r1
            /\ σ2 !! r1 = σ1 !! r1
            /\ σ2 !! 1%positive = Some (OValue (VFloat 0.05))
      | Raise e => convert float_to_s1813_no_copy (VFloat 0.05) = Raise e
      end).
Proof.
  split; [reflexivity|].
  exact (s1813_twice {[ 1%positive := OValue (VFloat 0.05) ]}
           1%positive (VFloat 0.05) [] eq_refl).
Defined.

(** ** The logarithm table at every shift *)
Section Log_table_shifts.
Context `{Libm}.

Lemma ln_lut_size_pow (input_shift : Z) :
  0 <= input_shift <= 13 -> ln_lut_size input_shift = 2 ^ (13 - input_shift).
Proof.
  intros Hs. apply shift_cases in Hs. cbn in Hs.
  repeat (destruct Hs as [<-|Hs]; [reflexivity|]). destruct Hs.
Qed.

Lemma round_half_away_inject_Z (k : Z) : round_half_away (inject_Z k) = k.
Proof.
  unfold round_half_away.
  destruct (Qle_bool 0 (inject_Z k)).
  - assert (k <= Qfloor (inject_Z k + (1 # 2)))
      by (rewrite <- (Qfloor_Z k) at 1; apply Qfloor_resp_le; lra).
    assert (Qfloor (inject_Z k + (1 # 2)) <= k).
    { apply Zle_of_Qlt_succ.
      pose proof (Qfloor_le (inject_Z k + (1 # 2))). lra. }
    lia.
  - assert (- k <= Qfloor (- inject_Z k + (1 # 2))).
    { rewrite <- (Qfloor_Z (- k)) at 1. apply Qfloor_resp_le.
      rewrite inject_Z_opp. lra. }
    assert (Qfloor (- inject_Z k + (1 # 2)) <= - k).
    { apply Zle_of_Qlt_succ. rewrite inject_Z_opp.
      pose proof (Qfloor_le (- inject_Z k + (1 # 2))). lra. }
    lia.
Qed.

(** A value between 0 and 1 is encoded between 0 and 8192. *)
Lemma s1813_unit_word (q : Q) :
  (0 <= q <= 1)%Q -> 0 <= encode float_to_s1813_no_copy q <= 8192.
Proof.
  intros [Hlo Hhi].
  change (encode float_to_s1813_no_copy q)
    with (Z.max (-2147483648) (Z.min 2147483647 (round_half_away (q * 8192)))).
  assert (0 <= round_half_away (q * 8192)).
  { rewrite <- (round_half_away_inject_Z 0) at 1.
    apply round_half_away_mono. change (inject_Z 0) with 0%Q. lra. }
  assert (round_half_away (q * 8192) <= 8192).
  { rewrite <- (round_half_away_inject_Z 8192) at 2.
    apply round_half_away_mono. change (inject_Z 8192) with 8192%Q. lra. }
  lia.
Qed.

(** [s1813_ln_lut] has no check of its argument.  A negative shift fails in
    the shift itself, with Python's [ValueError]; a shift above 13 gives a
    size of 0, and the step [1.0 / float(size)] raises
    [ZeroDivisionError]. *)
Theorem ln_lut_shift_out_of_range (input_shift : Z) :
  input_shift < 0 \/ 14 <= input_shift ->
  s1813_ln_lut input_shift
  = Raise (if input_shift <? 0 then ValueError else ZeroDivisionError).
Proof.
  unfold s1813_ln_lut, ln_lut_x. intros Hs.
  destruct (Z.ltb_spec input_shift 0); [reflexivity|].
  assert (ln_lut_size input_shift = 0) as ->.
  { unfold ln_lut_size. change (Z.shiftl 1 13) with 8192.
    apply Z.shiftr_eq_0; [lia|]. change (Z.log2 8192) with 13. lia. }
  reflexivity.
Qed.

(** For every shift from 0 to 13 the grid has [2 ^ (13 - input_shift)]
    samples, and sample [i] is the float that is exactly [1 + i / size], with
    no rounding error, inside [1, 2). *)
Theorem ln_lut_grid (input_shift : Z) :
  0 <= input_shift <= 13 ->
  exists xs,
    ln_lut_x input_shift = Ok xs
    /\ Z.of_nat (length xs) = 2 ^ (13 - input_shift)
    /\ forall i, (i < length xs)%nat ->
         exists x, nth_error xs i = Some x
                   /\ is_finite x = true
                   /\ (F2Q x == 1 + inject_Z (Z.of_nat i)
                                   / inject_Z (2 ^ (13 - input_shift)))%Q
                   /\ (1 <= Q2R (F2Q x) < 2)%R.
Proof.
  intros Hs. pose proof (ln_lut_size_pow input_shift Hs) as Hsize.
  assert (Hpos : 0 < ln_lut_size input_shift).
  { rewrite Hsize. apply Z.pow_pos_nonneg; lia. }
  exists (map (ln_lut_sample input_shift)
            (seq 0 (Z.to_nat (ln_lut_size input_shift)))).
  split; [now apply ln_lut_x_eq|]. rewrite length_map, length_seq.
  split; [lia|]. intros i Hi.
  exists (ln_lut_sample input_shift i).
  destruct (sample_exact input_shift i Hs Hi) as [Hfin Hex].
  split; [|split; [exact Hfin|split]].
  - rewrite nth_error_map, nth_error_seq.
    destruct (Nat.ltb_spec i (Z.to_nat (ln_lut_size input_shift))); [reflexivity|lia].
  - now rewrite <- Hsize.
  - apply (ln_lut_samples_half_open input_shift i Hs Hi).
Qed.

(** The table is converted to s18.13, a 32-bit format, and the layout stores
    it as signed 16-bit integers ([128i2]).  With a library logarithm that
    stays within [0, 1] on the grid, and the conversion of section 4.1, the
    table has [2 ^ (13 - input_shift)] entries (128 at the layout's shift of
    6), each between 0 and 8192, so each fits its 16 bits. *)
Theorem ln_lut_fits_i2 (input_shift : Z) :
  0 <= input_shift <= 13 ->
  forallb (fun j => log_in_unit (np_log (ln_lut_sample input_shift j)))
    (seq 0 (Z.to_nat (ln_lut_size input_shift))) = true ->
  exists table,
    s1813_ln_lut input_shift = Ok table
    /\ Z.of_nat (length table) = 2 ^ (13 - input_shift)
    /\ (input_shift = 6 -> length table = 128%nat)
    /\ Forall (fun e => 0 <= e <= 8192) table
    /\ forallb fits_i2 table = true.
Proof.
  intros Hs Hunit.
  set (n := Z.to_nat (ln_lut_size input_shift)) in *.
  set (enc := fun f => encode float_to_s1813_no_copy (F2Q f)).
  set (ys := map np_log (map (ln_lut_sample input_shift) (seq 0 n))).
  assert (Hys : Forall (fun y => log_in_unit y = true) ys).
  { apply List.Forall_forall. intros y Hy. subst ys.
    apply in_map_iff in Hy as (x & <- & Hx).
    apply in_map_iff in Hx as (j & <- & Hj).
    rewrite forallb_forall in Hunit. now apply Hunit. }
  assert (Hfin : forallb is_finite ys = true).
  { apply forallb_forall. intros y Hy.
    rewrite List.Forall_forall in Hys. specialize (Hys y Hy).
    unfold log_in_unit in Hys. rewrite !andb_true_iff in Hys. tauto. }
  assert (Hwords : Forall (fun e => 0 <= e <= 8192) (map enc ys)).
  { apply List.Forall_forall. intros e He.
    apply in_map_iff in He as (y & <- & Hy).
    rewrite List.Forall_forall in Hys. specialize (Hys y Hy).
    unfold log_in_unit in Hys. rewrite !andb_true_iff in Hys.
    destruct Hys as [[_ Hlo] Hhi]. apply Qle_bool_iff in Hlo, Hhi.
    apply s1813_unit_word. split; assumption. }
  assert (Hlen : length (map enc ys) = n).
  { subst ys. now rewrite !length_map, length_seq. }
  pose proof (ln_lut_size_pow input_shift Hs) as Hsize.
  exists (map enc ys). split; [|split; [|split; [|split]]].
  - unfold s1813_ln_lut. rewrite (ln_lut_x_eq input_shift Hs). fold n.
    exact (mapM_to_fixed _ _ Hfin).
  - rewrite Hlen. subst n. rewrite <- Hsize.
    assert (0 < ln_lut_size input_shift)
      by (rewrite Hsize; apply Z.pow_pos_nonneg; lia).
    lia.
  - intros ->. rewrite Hlen. reflexivity.
  - exact Hwords.
  - apply forallb_forall. intros e He.
    rewrite List.Forall_forall in Hwords. specialize (Hwords e He).
    unfold fits_i2. apply andb_true_iff. split; apply Z.leb_le; lia.
Qed.

End Log_table_shifts.

Lemma ln_lut_shift_out_of_range_witness :
  (14 < 0 \/ 14 <= 14)
  /\ @s1813_ln_lut first_order_libm 14 = Raise ZeroDivisionError
  /\ @s1813_ln_lut first_order_libm (-1) = Raise ValueError.
Proof.
  assert (H14 : 14 < 0 \/ 14 <= 14) by (right; lia).
  assert (Hneg : -1 < 0 \/ 14 <= -1) by (left; lia).
  split; [exact H14|]. split.
  - exact (@ln_lut_shift_out_of_range first_order_libm 14 H14).
  - exact (@ln_lut_shift_out_of_range first_order_libm (-1) Hneg).
Defined.

Lemma ln_lut_grid_witness :
  0 <= 6 <= 13
  /\ exists xs,
       @ln_lut_x first_order_libm 6 = Ok xs
       /\ Z.of_nat (length xs) = 2 ^ (13 - 6)
       /\ forall i, (i < length xs)%nat ->
            exists x, nth_error xs i = Some x
                      /\ is_finite x = true
                      /\ (F2Q x == 1 + inject_Z (Z.of_nat i)
                                      / inject_Z (2 ^ (13 - 6)))%Q
                      /\ (1 <= Q2R (F2Q x) < 2)%R.
Proof.
  assert (Hs : 0 <= 6 <= 13) by lia.
  split; [exact Hs|].
  exact (@ln_lut_grid first_order_libm 6 Hs).
Defined.

Lemma ln_lut_fits_i2_witness :
  0 <= 6 <= 13
  /\ forallb (fun j => log_in_unit
                         (@np_log first_order_libm (ln_lut_sample 6 j)))
       (seq 0 (Z.to_nat (ln_lut_size 6))) = true
  /\ exists table,
       @s1813_ln_lut first_order_libm 6 = Ok table
       /\ Z.of_nat (length table) = 2 ^ (13 - 6)
       /\ (6 = 6 -> length table = 128%nat)
       /\ Forall (fun e => 0 <= e <= 8192) table
       /\ forallb fits_i2 table = true.
Proof.
  assert (Hs : 0 <= 6 <= 13) by lia.
  assert (Hu : forallb (fun j => log_in_unit
                          (@np_log first_order_libm (ln_lut_sample 6 j)))
                 (seq 0 (Z.to_nat (ln_lut_size 6))) = true)
    by (vm_compute; reflexivity).
  split; [exact Hs|]. split; [exact Hu|].
  exact (@ln_lut_fits_i2 first_order_libm 6 Hs Hu).
Defined.

(** ** [_get_minimum_delay] once more *)
Section Minimum_delay.
Import BCPNNSynapse.

(** The word "auto" is replaced once: [_get_minimum_delay] returns "auto"
    only when [state.dt] itself is "auto". *)
Theorem get_minimum_delay_auto_only_from_dt (state : simulator.State) :
  simulator.is_text (_get_minimum_delay state) "auto" = true ->
  simulator.is_text (simulator.dt state) "auto" = true.
Proof.
  unfold _get_minimum_delay.
  destruct (simulator.is_text (simulator.min_delay state) "auto") eqn:Hd;
    [trivial|congruence].
Qed.

End Minimum_delay.

Lemma get_minimum_delay_auto_only_from_dt_witness :
  let state := {| simulator.min_delay := simulator.Text "auto";
                  simulator.dt := simulator.Text "auto" |} in
  simulator.is_text (BCPNNSynapse._get_minimum_delay state) "auto" = true
  /\ simulator.is_text (simulator.dt state) "auto" = true.
Proof.
  split; [reflexivity|].
  exact (get_minimum_delay_auto_only_from_dt
           {| simulator.min_delay := simulator.Text "auto";
              simulator.dt := simulator.Text "auto" |} eq_refl).
Defined.
